(** * apitest.py: tag loader, REST calls and the WebSocket subscription loop

    A shallow embedding of [src/apitest/apitest.py].  Python values that come
    out of [json.load] are modelled by the inductive type [json]; printing,
    sending, posting and sleeping are recorded as events of a trace that is
    threaded through a small state-and-exception monad.

    The outside world enters as parameters: the file system ([filesystem]),
    the answers of the REST server ([network]) and what happens on each
    WebSocket connection ([notification]).  The text of a file is kept only
    as what [json.load] makes of it.  The interpreter's recursion limit and
    [BaseException]s such as [KeyboardInterrupt] are not modelled. *)

From Stdlib Require Import List String Ascii ZArith Bool Lia PrimFloat.
From Stdlib Require Import DecimalString.
Import ListNotations.
Local Open Scope string_scope.
Local Open Scope list_scope.

(** ** Python values produced by [json.load] *)

(** [json.load] yields [None], [bool], [int], [float], [str], [list] and
    [dict] with [str] keys.  A dict is kept as an association list in
    insertion order; a lookup takes the first binding of a key. *)
#[local] Unset Elimination Schemes.
Inductive json : Type :=
| JNull
| JBool (b : bool)
| JInt (z : Z)
| JFloat (f : float)
| JStr (s : string)
| JList (items : list json)
| JDict (entries : list (string * json)).
#[local] Set Elimination Schemes.

Definition dict := list (string * json).

Section DictFind.
Context {V A : Type}.
Variable key : string.
Variable found : V -> A.
Variable missing : A.

(** Continuation form of a dict lookup: [found v] for the first binding of
    [key], [missing] when the key is absent. *)
Fixpoint dict_find (d : list (string * V)) : A :=
  match d with
  | [] => missing
  | (k, v) :: rest => if String.eqb k key then found v else dict_find rest
  end.
End DictFind.

(** [d.get(key)]: [None] of the model stands for Python's [None] default. *)
Definition dict_get (key : string) (d : dict) : option json :=
  dict_find key Some None d.

(** [key in d] *)
Definition dict_mem (key : string) (d : dict) : bool :=
  dict_find key (fun _ : json => true) false d.

(** [bool(v)]: Python truthiness. *)
Definition truthy (v : json) : bool :=
  match v with
  | JNull => false
  | JBool b => b
  | JInt z => negb (Z.eqb z 0)
  | JFloat f => negb (PrimFloat.eqb f PrimFloat.zero)
  | JStr s => negb (String.eqb s "")
  | JList items => match items with [] => false | _ :: _ => true end
  | JDict entries => match entries with [] => false | _ :: _ => true end
  end.

(** [a or b] on values: the first operand when it is truthy, else the second. *)
Definition py_or (a b : json) : json := if truthy a then a else b.

(** [d.get(key) or rest], with an absent key giving [None], which is falsy. *)
Definition get_or (key : string) (d : dict) (rest : json) : json :=
  match dict_get key d with
  | Some v => py_or v rest
  | None => rest
  end.

(** [v == "..."] for a value obtained with [.get]: only a [str] with the same
    characters is equal to a [str]. *)
Definition eq_str (v : option json) (s : string) : bool :=
  match v with
  | Some (JStr s') => String.eqb s' s
  | _ => false
  end.

(** ** The tree walk *)

(** [extract_variable_nodeids(node, result)], lines 47-61.  The list [result]
    is mutated in place by [append] and shared by every recursive call; the
    model passes it through.  The Python default [result=None] is the
    wrapper [extract_variable_nodeids] below. *)
Fixpoint extract_into (node : json) (result : list json) {struct node} : list json :=
  match node with
  | JDict d =>
      let result :=
        if eq_str (dict_get "nodeClass" d) "NodeClassVariable" && dict_mem "nodeId" d
        then dict_find "nodeId" (fun v => result ++ [v]) result d
        else result in
      (* children = node.get("children"); if isinstance(children, list): ... *)
      dict_find "children"
        (fun children =>
           match children with
           | JList cs => fold_left (fun r child => extract_into child r) cs result
           | _ => result
           end)
        result d
  | JList items => fold_left (fun r item => extract_into item r) items result
  | _ => result
  end.

Definition extract_variable_nodeids (node : json) : list json :=
  extract_into node [].

(** ** Effects: a trace of events under a state-and-exception monad *)

(** The exceptions the program can meet; each carries the text [str(e)]. *)
Inductive exn : Type :=
| JSONDecodeError (msg : string)
| TypeError (msg : string)
| ConnectionError (msg : string)
| Timeout (msg : string).

Definition exn_str (e : exn) : string :=
  match e with
  | JSONDecodeError msg | TypeError msg | ConnectionError msg | Timeout msg => msg
  end.

(** What the program does to the outside world, in order.  [Print] keeps the
    arguments of the [print] call; [Post] and [Send] keep the object that
    [json.dumps] serialises. *)
Inductive event : Type :=
| Print (args : list json)
| Post (url : string) (data : json) (headers : list (string * string)) (timeout : Z)
| Connect (url : string)
| Send (message : json)
| Sleep (seconds : Z).

Inductive result (A : Type) : Type :=
| Ok (a : A)
| Raise (e : exn).
Arguments Ok {A} a.
Arguments Raise {A} e.

Definition M (A : Type) : Type := list event -> result A * list event.

Definition ret {A} (a : A) : M A := fun tr => (Ok a, tr).

Definition bind {A B} (m : M A) (k : A -> M B) : M B :=
  fun tr =>
    match m tr with
    | (Ok a, tr') => k a tr'
    | (Raise e, tr') => (Raise e, tr')
    end.

Definition raise {A} (e : exn) : M A := fun tr => (Raise e, tr).

Definition emit (ev : event) : M unit := fun tr => (Ok tt, tr ++ [ev]).

(** [try: body except Exception as e: handler(e)] *)
Definition try_except {A} (body : M A) (handler : exn -> M A) : M A :=
  fun tr =>
    match body tr with
    | (Ok a, tr') => (Ok a, tr')
    | (Raise e, tr') => handler e tr'
    end.

Notation "x <- m ;; k" := (bind m (fun x => k))
  (at level 61, m at next level, right associativity).
Notation "m ;; k" := (bind m (fun _ => k))
  (at level 61, right associativity).

Definition print (args : list json) : M unit := emit (Print args).

(** ** Constants, lines 8-12 *)

Definition REST_API_URL : string := "http://192.168.0.40:8080/api/v1".
Definition WS_API_URL : string := "ws://192.168.0.40:8080/ws/subscribe".
Definition TAG_JSON_PATH : string := "tags.json".

(** ** The tag loader *)

(** A file as [json.load] sees it: its text is a JSON document with a parsed
    value, or it is not JSON and [json.load] raises. *)
Inductive file : Type :=
| NotJson (error : string)
| Json (data : json).

(** [os.path.exists]: [None] for a path that does not exist. *)
Definition filesystem : Type := string -> option file.

(** [json.load(f)] / [json.loads(text)] *)
Definition json_load (f : file) : M json :=
  match f with
  | NotJson error => raise (JSONDecodeError error)
  | Json data => ret data
  end.

(** [load_tags_from_json(json_path)], lines 63-78 *)
Definition load_tags_from_json (fs : filesystem) (json_path : string) : M json :=
  match fs json_path with
  | None =>
      print [JStr ("Tag json file not found: " ++ json_path)] ;;
      ret (JList [])
  | Some f =>
      data <- json_load f ;;
      let node_ids := JList (extract_variable_nodeids data) in
      if truthy node_ids then ret node_ids
      else
        match data with
        | JList _ => ret data
        | JDict d => ret (get_or "tags" d (get_or "node_ids" d (JList [])))
        | _ => ret (JList [])
        end
  end.

(** ** The subscription client *)

(** A byte that continues a character of a UTF-8 text: 10xxxxxx. *)
Definition is_continuation (c : ascii) : bool :=
  match c with
  | Ascii _ _ _ _ _ _ b6 b7 => b7 && negb b6
  end.

(** [len(s)] for a [str]: the number of its code points.  A [str] is kept as
    its UTF-8 bytes, so its code points are the bytes that do not continue
    a character. *)
Fixpoint str_len (s : string) : nat :=
  match s with
  | EmptyString => 0
  | String c rest => if is_continuation c then str_len rest else S (str_len rest)
  end.

(** [len(v)]: defined on [str], [list] and [dict], a [TypeError] elsewhere.
    A dict counts its distinct keys. *)
Definition py_len (v : json) : M nat :=
  match v with
  | JStr s => ret (str_len s)
  | JList items => ret (List.length items)
  | JDict entries => ret (List.length (nodup string_dec (map fst entries)))
  | JNull => raise (TypeError "object of type 'NoneType' has no len()")
  | JBool _ => raise (TypeError "object of type 'bool' has no len()")
  | JInt _ => raise (TypeError "object of type 'int' has no len()")
  | JFloat _ => raise (TypeError "object of type 'float' has no len()")
  end.

(** [str(n)] for a length *)
Definition str_of_nat (n : nat) : string :=
  NilEmpty.string_of_uint (Nat.to_uint n).

(** [ws.send(json.dumps(msg))] on an open connection *)
Definition ws_send (msg : json) : M unit := emit (Send msg).

(** [on_open(ws)], lines 80-92 *)
Definition on_open (fs : filesystem) : M unit :=
  print [JStr "WebSocket Opened"] ;;
  node_ids <- load_tags_from_json fs TAG_JSON_PATH ;;
  subscribe_msg <-
    (if negb (truthy node_ids) then
       print [JStr "No tags loaded from json, not subscribing."] ;;
       ret (JDict [("action", JStr "subscribe")])
     else
       n <- py_len node_ids ;;
       print [JStr ("Subscribing to " ++ str_of_nat n ++ " tags from json file.")] ;;
       ret (JDict [("action", JStr "subscribe"); ("node_ids", node_ids)])) ;;
  ws_send subscribe_msg.

(** [on_message(ws, message)], lines 38-39 *)
Definition on_message (message : file) : M unit :=
  data <- json_load message ;;
  print [JStr "WebSocket Message:"; data].

(** [on_error(ws, error)], lines 41-42 *)
Definition on_error (error : exn) : M unit :=
  print [JStr "WebSocket Error:"; JStr (exn_str error)].

(** [on_close(ws, close_status_code, close_msg)], lines 44-45 *)
Definition on_close : M unit :=
  print [JStr "WebSocket Closed"].

(** What the WebSocket library reports on one connection. *)
Inductive notification : Type :=
| Opened
| Message (text : file)
| Errored (error : exn)
| Closed.

Definition callback (fs : filesystem) (n : notification) : M unit :=
  match n with
  | Opened => on_open fs
  | Message text => on_message text
  | Errored error => on_error error
  | Closed => on_close
  end.

Fixpoint for_each {A} (body : A -> M unit) (xs : list A) : M unit :=
  match xs with
  | [] => ret tt
  | x :: rest => body x ;; for_each body rest
  end.

(** [ws.run_forever()], the call of line 104, as the websocket-client library
    behaves: it connects to the URL, runs the callbacks for what happens on
    the connection, hands an exception raised by a callback to [on_error],
    and returns once the connection is closed.  [session] is what happens on
    this connection. *)
Definition run_forever (fs : filesystem) (session : list notification) : M unit :=
  emit (Connect WS_API_URL) ;;
  for_each (fun n => try_except (callback fs n) on_error) session.

(** [time.sleep(seconds)] *)
Definition time_sleep (seconds : Z) : M unit := emit (Sleep seconds).

(** One round of the [while True:] of [run_websocket], lines 96-106. *)
Definition run_websocket_round (fs : filesystem) (session : list notification) : M unit :=
  print [JStr "Starting WebSocket connection..."] ;;
  run_forever fs session ;;
  print [JStr "WebSocket closed. Reconnecting in 5 seconds..."] ;;
  time_sleep 5.

(** [run_websocket()], lines 94-106.  The loop has no [break], [return] or
    bound; [run_websocket fs sessions] is its run over the connections of
    [sessions], one round for each connection that came to a close, and ends
    at the head of the loop, where the next round starts. *)
Definition run_websocket (fs : filesystem) (sessions : list (list notification)) : M unit :=
  for_each (run_websocket_round fs) sessions.

(** ** The REST client *)

(** How the server and the network answer one request. *)
Inductive reply : Type :=
| Refused (msg : string)
| TimedOut (msg : string)
| Replied (body : file).

(** The network: the answer to a POST of [data] to [url], given the time the
    caller is ready to wait. *)
Definition network : Type := string -> json -> Z -> reply.

(** [requests.post(url, data=json.dumps(payload), headers=headers, timeout=t)] *)
Definition requests_post (net : network) (url : string) (payload : json)
    (headers : list (string * string)) (timeout : Z) : M file :=
  emit (Post url payload headers timeout) ;;
  match net url payload timeout with
  | Refused msg => raise (ConnectionError msg)
  | TimedOut msg => raise (Timeout msg)
  | Replied body => ret body
  end.

(** [read_node(node_id)], lines 14-22 *)
Definition read_node (net : network) (node_id : json) : M unit :=
  let url := (REST_API_URL ++ "/read")%string in
  let payload := JDict [("node_id", node_id)] in
  let headers := [("Content-Type", "application/json")] in
  try_except
    (response <- requests_post net url payload headers 3 ;;
     body <- json_load response ;;
     print [JStr "Read Response:"; body])
    (fun e => print [JStr ("Read node failed: " ++ exn_str e)]).

(** [write_node(node_id, data_type, value)], lines 24-36 *)
Definition write_node (net : network) (node_id data_type value : json) : M unit :=
  let url := (REST_API_URL ++ "/write")%string in
  let payload := JDict [("node_id", node_id); ("data_type", data_type); ("value", value)] in
  let headers := [("Content-Type", "application/json")] in
  try_except
    (response <- requests_post net url payload headers 3 ;;
     body <- json_load response ;;
     print [JStr "Write Response:"; body])
    (fun e => print [JStr ("Write node failed: " ++ exn_str e)]).

(** ** Reading traces *)

(** The messages sent over the WebSocket, in order. *)
Fixpoint sent_messages (tr : list event) : list json :=
  match tr with
  | [] => []
  | Send msg :: rest => msg :: sent_messages rest
  | _ :: rest => sent_messages rest
  end.

Definition is_connect (ev : event) : bool :=
  match ev with
  | Connect _ => true
  | _ => false
  end.

(** The number of connection attempts of a trace. *)
Definition connects (tr : list event) : nat :=
  List.length (filter is_connect tr).

(** ** The tag tree of the specification *)

(** The NodeDescriptor of the data model: a category tag, a string
    identifier and an optional ordered sequence of children. *)
#[local] Unset Elimination Schemes.
Inductive NodeDescriptor : Type :=
| Node (nodeClass : string) (nodeId : string) (children : option (list NodeDescriptor)).
#[local] Set Elimination Schemes.

(** A tag-tree input: one descriptor, or a sequence of descriptors. *)
Inductive TagTree : Type :=
| Mapping (root : NodeDescriptor)
| Sequence (roots : list NodeDescriptor).

(** The nodeId of every descriptor of the variable category, in depth-first
    pre-order: a descriptor comes before its children, children in order. *)
Fixpoint variable_ids (d : NodeDescriptor) : list string :=
  match d with
  | Node nodeClass nodeId children =>
      (if String.eqb nodeClass "NodeClassVariable" then [nodeId] else [])
      ++ match children with
         | Some ds => flat_map variable_ids ds
         | None => []
         end
  end.

Definition tree_variable_ids (t : TagTree) : list string :=
  match t with
  | Mapping root => variable_ids root
  | Sequence roots => flat_map variable_ids roots
  end.

(** A parsed value is a descriptor: a mapping whose [nodeClass] and [nodeId]
    are those strings (whatever other keys it has, in whatever order) and
    whose [children], when the descriptor has some, is the sequence of their
    values.  A descriptor without children has no [children] key or a
    [null] one. *)
Inductive encodes : json -> NodeDescriptor -> Prop :=
| encodes_node d nodeClass nodeId children :
    dict_get "nodeClass" d = Some (JStr nodeClass) ->
    dict_get "nodeId" d = Some (JStr nodeId) ->
    encodes_children (dict_get "children" d) children ->
    encodes (JDict d) (Node nodeClass nodeId children)
with encodes_children : option json -> option (list NodeDescriptor) -> Prop :=
| encodes_absent : encodes_children None None
| encodes_null : encodes_children (Some JNull) None
| encodes_present js ds :
    encodes_all js ds ->
    encodes_children (Some (JList js)) (Some ds)
with encodes_all : list json -> list NodeDescriptor -> Prop :=
| encodes_nil : encodes_all [] []
| encodes_cons j d js ds :
    encodes j d -> encodes_all js ds -> encodes_all (j :: js) (d :: ds).

Scheme encodes_min := Minimality for encodes Sort Prop
  with encodes_children_min := Minimality for encodes_children Sort Prop
  with encodes_all_min := Minimality for encodes_all Sort Prop.

Inductive encodes_tree : json -> TagTree -> Prop :=
| encodes_mapping j root : encodes j root -> encodes_tree j (Mapping root)
| encodes_sequence js roots : encodes_all js roots -> encodes_tree (JList js) (Sequence roots).

(** The flat mapping format as the specification words it: the value under
    [tags] if that key is present, else the value under [node_ids] if that
    key is present, else an empty sequence. *)
Definition spec_flat_mapping (d : dict) : json :=
  match dict_get "tags" d with
  | Some v => v
  | None =>
      match dict_get "node_ids" d with
      | Some v => v
      | None => JList []
      end
  end.

(** A key that [d.get(key) or ...] passes over: absent, or bound to a falsy
    value. *)
Definition passed_over (key : string) (d : dict) : Prop :=
  match dict_get key d with
  | Some v => truthy v = false
  | None => True
  end.

(** ** Induction on parsed values *)

Section JsonInd.
Variable P : json -> Prop.
Hypothesis Hnull : P JNull.
Hypothesis Hbool : forall b, P (JBool b).
Hypothesis Hint : forall z, P (JInt z).
Hypothesis Hfloat : forall f, P (JFloat f).
Hypothesis Hstr : forall s, P (JStr s).
Hypothesis Hlist : forall items, Forall P items -> P (JList items).
Hypothesis Hdict :
  forall entries, Forall (fun kv => P (snd kv)) entries -> P (JDict entries).

Fixpoint json_ind (v : json) : P v :=
  match v with
  | JNull => Hnull
  | JBool b => Hbool b
  | JInt z => Hint z
  | JFloat f => Hfloat f
  | JStr s => Hstr s
  | JList items =>
      Hlist items
        ((fix all (l : list json) : Forall P l :=
            match l with
            | [] => Forall_nil P
            | x :: rest => Forall_cons x (json_ind x) (all rest)
            end) items)
  | JDict entries =>
      Hdict entries
        ((fix all (l : list (string * json)) : Forall (fun kv => P (snd kv)) l :=
            match l with
            | [] => Forall_nil _
            | kv :: rest => Forall_cons kv (json_ind (snd kv)) (all rest)
            end) entries)
  end.
End JsonInd.

(** What a mapping itself adds to the result: its [nodeId] value when its
    [nodeClass] is the variable category and the key [nodeId] is there. *)
Definition own_ids (d : dict) : list json :=
  if eq_str (dict_get "nodeClass" d) "NodeClassVariable"
  then match dict_get "nodeId" d with Some v => [v] | None => [] end
  else [].

(** The [for child in children] of a mapping, after [isinstance(children, list)]. *)
Definition walk_children (children : option json) (result : list json) : list json :=
  match children with
  | Some (JList cs) => fold_left (fun r child => extract_into child r) cs result
  | _ => result
  end.

(** The subscribe message of the specification: the action alone when
    there is no node id, else the action and the node ids in order. *)
Definition subscribe_message (node_ids : list json) : json :=
  match node_ids with
  | [] => JDict [("action", JStr "subscribe")]
  | _ :: _ => JDict [("action", JStr "subscribe"); ("node_ids", JList node_ids)]
  end.

(** A parsed value that is neither a mapping nor a sequence. *)
Definition is_scalar (v : json) : bool :=
  match v with
  | JList _ | JDict _ => false
  | _ => true
  end.

(** A computation that only appends to the trace, does the same whatever
    the trace was, and opens no connection. *)
Definition steady {A} (m : M A) : Prop :=
  (forall tr, m tr = (fst (m []), tr ++ snd (m []))) /\
  filter is_connect (snd (m [])) = [].

(** The events of the callbacks of one connection. *)
Definition session_events (fs : filesystem) (session : list notification) : list event :=
  snd (for_each (fun n => try_except (callback fs n) on_error) session []).

(** The events of one round of the reconnect loop. *)
Definition round_events (fs : filesystem) (session : list notification) : list event :=
  [Print [JStr "Starting WebSocket connection..."]; Connect WS_API_URL]
  ++ session_events fs session
  ++ [Print [JStr "WebSocket closed. Reconnecting in 5 seconds..."]; Sleep 5].

(** ** Sample inputs *)

(** A file system with one file. *)
Definition one_file (path : string) (f : file) : filesystem :=
  fun p => if String.eqb p path then Some f else None.

Definition descriptor (nodeClass nodeId : string) (children : list json) : json :=
  JDict [("nodeClass", JStr nodeClass); ("nodeId", JStr nodeId); ("children", JList children)].

(** A plant with a variable below a variable and a variable two levels down. *)
Definition plant_json : json :=
  JList
    [JDict [("displayName", JStr "Plant"); ("nodeId", JStr "ns=1;i=1");
            ("nodeClass", JStr "NodeClassObject");
            ("children",
             JList
               [descriptor "NodeClassVariable" "ns=1;i=2"
                  [JDict [("nodeClass", JStr "NodeClassVariable"); ("nodeId", JStr "ns=1;i=3")]];
                descriptor "NodeClassObject" "ns=1;i=4"
                  [JDict [("nodeClass", JStr "NodeClassVariable"); ("nodeId", JStr "ns=1;i=5");
                          ("children", JNull)]]])]].

Definition plant_tree : TagTree :=
  Sequence
    [Node "NodeClassObject" "ns=1;i=1"
       (Some [Node "NodeClassVariable" "ns=1;i=2"
                (Some [Node "NodeClassVariable" "ns=1;i=3" None]);
              Node "NodeClassObject" "ns=1;i=4"
                (Some [Node "NodeClassVariable" "ns=1;i=5" None])])].

(** A tree of folders only. *)
Definition folders_json : json :=
  JList [JDict [("nodeClass", JStr "NodeClassObject"); ("nodeId", JStr "ns=1;i=1")]].

Definition folders_tree : TagTree :=
  Sequence [Node "NodeClassObject" "ns=1;i=1" None].

(** A mapping with an empty [tags] and a filled [node_ids]. *)
Definition empty_tags : dict :=
  [("tags", JList []); ("node_ids", JList [JStr "y"])].

(** A variable without nodeId above a variable. *)
Definition anonymous_variable : dict :=
  [("nodeClass", JStr "NodeClassVariable");
   ("children",
    JList [JDict [("nodeClass", JStr "NodeClassVariable"); ("nodeId", JStr "b")]])].

(** Three connections in a row that fail and are closed. *)
Definition three_failures : list (list notification) :=
  repeat [Errored (ConnectionError "Connection refused"); Closed] 3.

(** A network that answers nothing in time. *)
Definition dead_network : network :=
  fun _ _ _ => TimedOut "Read timed out. (read timeout=3)".

(** ** Notions for the properties of the whole program *)

(** The mappings the walk visits in a parsed value: a mapping itself, the
    mappings visited in the items of the sequence under its [children], and
    the mappings visited in the items of a sequence. *)
Inductive reaches : json -> dict -> Prop :=
| reaches_self d : reaches (JDict d) d
| reaches_child d cs child d' :
    dict_get "children" d = Some (JList cs) ->
    In child cs -> reaches child d' -> reaches (JDict d) d'
| reaches_item items item d' :
    In item items -> reaches item d' -> reaches (JList items) d'.

(** Printing and sending, as opposed to posting, connecting and sleeping. *)
Definition is_output (ev : event) : bool :=
  match ev with
  | Print _ | Send _ => true
  | _ => false
  end.

(** A computation that is [steady] and whose events all satisfy [P]. *)
Definition emits (P : event -> bool) {A} (m : M A) : Prop :=
  steady m /\ forallb P (snd (m [])) = true.

(** The durations of the sleeps of a trace, in order. *)
Definition sleeps (tr : list event) : list Z :=
  flat_map (fun ev => match ev with Sleep seconds => [seconds] | _ => [] end) tr.

Definition is_opened (n : notification) : bool :=
  match n with
  | Opened => true
  | _ => false
  end.

(** The number of times a connection reports that it is open. *)
Definition opens (session : list notification) : nat :=
  List.length (filter is_opened session).

(** Values on which [len] raises. *)
Definition has_no_len (v : json) : bool :=
  match v with
  | JNull | JBool _ | JInt _ | JFloat _ => true
  | _ => false
  end.

(** A sequence that mixes a plain node id with a variable descriptor. *)
Definition mixed_list : json :=
  JList [JStr "a"; descriptor "NodeClassVariable" "b" []].

(** The one-character string U+00E9, two bytes in UTF-8. *)
Definition e_acute : string :=
  String (ascii_of_nat 195) (String (ascii_of_nat 169) EmptyString).

(** A mapping whose [tags] is a number. *)
Definition number_tags : dict := [("tags", JInt 5)].

(** A mapping of the variable category whose [children] is a mapping. *)
Definition children_by_name : dict :=
  [("nodeClass", JStr "NodeClassVariable"); ("nodeId", JStr "a");
   ("children",
    JDict [("b", JDict [("nodeClass", JStr "NodeClassVariable"); ("nodeId", JStr "b")])])].

(** A server that answers every request with the same JSON body. *)
Definition echo_network (body : json) : network :=
  fun _ _ _ => Replied (Json body).

(** * Properties *)

(** ** Dict lookups and the tree walk, equation by equation *)

Lemma dict_find_get {A} key (found : json -> A) missing (d : dict) :
  dict_find key found missing d =
  match dict_get key d with
  | Some v => found v
  | None => missing
  end.
Proof.
  unfold dict_get.
  induction d as [|[k v] rest IH]; simpl; [reflexivity|].
  destruct (String.eqb k key); [reflexivity | exact IH].
Qed.

Lemma dict_mem_get key (d : dict) :
  dict_mem key d = match dict_get key d with Some _ => true | None => false end.
Proof. unfold dict_mem. apply dict_find_get. Qed.

Lemma extract_into_dict d result :
  extract_into (JDict d) result =
  walk_children (dict_get "children" d) (result ++ own_ids d).
Proof.
  cbn [extract_into]. rewrite !dict_find_get, dict_mem_get. unfold own_ids, walk_children.
  destruct (eq_str (dict_get "nodeClass" d) "NodeClassVariable"); cbn [andb].
  - destruct (dict_get "nodeId" d) as [v|].
    + destruct (dict_get "children" d) as [[]|]; reflexivity.
    + rewrite app_nil_r. destruct (dict_get "children" d) as [[]|]; reflexivity.
  - rewrite app_nil_r. destruct (dict_get "children" d) as [[]|]; reflexivity.
Qed.

Lemma extract_into_list items result :
  extract_into (JList items) result =
  fold_left (fun r item => extract_into item r) items result.
Proof. reflexivity. Qed.

Lemma dict_get_Forall (P : json -> Prop) key (d : dict) v :
  Forall (fun kv => P (snd kv)) d -> dict_get key d = Some v -> P v.
Proof.
  unfold dict_get.
  induction 1 as [|[k w] rest Hw _ IH]; simpl; [discriminate|].
  destruct (String.eqb k key); [|exact IH].
  now intros [= <-].
Qed.

(** The walk only appends to the list it is given. *)
Lemma extract_into_app node :
  forall result, extract_into node result = result ++ extract_variable_nodeids node.
Proof.
  unfold extract_variable_nodeids.
  induction node as [| | | | |items IH|entries IH] using json_ind; intro result;
    try (simpl; now rewrite app_nil_r).
  - rewrite !extract_into_list. revert result.
    induction IH as [|v rest Hv _ IHrest]; intro r; simpl.
    + now rewrite app_nil_r.
    + rewrite IHrest, Hv, (IHrest (extract_into v [])). now rewrite app_assoc.
  - rewrite !extract_into_dict. cbn [app]. unfold walk_children.
    destruct (dict_get "children" entries) as [[| | | | |cs|]|] eqn:E;
      try reflexivity.
    pose proof (dict_get_Forall
                  (fun v => forall r, extract_into v r = r ++ extract_into v [])
                  _ _ _ IH E) as Hcs.
    rewrite <- !extract_into_list.
    rewrite Hcs, (Hcs (own_ids entries)). now rewrite app_assoc.
Qed.

(** ** The tree walk against the pre-order of the specification *)

Combined Scheme encodes_mutind from encodes_min, encodes_children_min, encodes_all_min.

Lemma own_ids_encodes d nodeClass nodeId :
  dict_get "nodeClass" d = Some (JStr nodeClass) ->
  dict_get "nodeId" d = Some (JStr nodeId) ->
  own_ids d =
  map JStr (if String.eqb nodeClass "NodeClassVariable" then [nodeId] else []).
Proof.
  intros Hc Hi. unfold own_ids. rewrite Hc, Hi. cbn [eq_str].
  now destruct (String.eqb nodeClass "NodeClassVariable").
Qed.

Lemma walk_encodes :
  (forall j d, encodes j d ->
     forall r, extract_into j r = r ++ map JStr (variable_ids d)) /\
  (forall oj children, encodes_children oj children ->
     forall r, walk_children oj r =
               r ++ map JStr (match children with
                              | Some ds => flat_map variable_ids ds
                              | None => []
                              end)) /\
  (forall js ds, encodes_all js ds ->
     forall r, fold_left (fun r child => extract_into child r) js r =
               r ++ map JStr (flat_map variable_ids ds)).
Proof.
  apply encodes_mutind.
  - intros d nodeClass nodeId children Hc Hi _ IH r.
    rewrite extract_into_dict, IH, (own_ids_encodes _ _ _ Hc Hi).
    cbn [variable_ids]. now rewrite map_app, app_assoc.
  - intro r. simpl. now rewrite app_nil_r.
  - intro r. simpl. now rewrite app_nil_r.
  - intros js ds _ IH r. exact (IH r).
  - intro r. simpl. now rewrite app_nil_r.
  - intros j d js ds _ IHj _ IHjs r. simpl.
    now rewrite IHjs, IHj, map_app, app_assoc.
Qed.

Lemma walk_encodes_tree data t :
  encodes_tree data t ->
  extract_variable_nodeids data = map JStr (tree_variable_ids t).
Proof.
  destruct walk_encodes as (Hnode & _ & Hall).
  unfold extract_variable_nodeids.
  intros [j root H|js roots H]; cbn [tree_variable_ids].
  - now rewrite (Hnode _ _ H).
  - now rewrite extract_into_list, (Hall _ _ H).
Qed.

(** ** The loader, case by case *)

Lemma load_missing fs path tr :
  fs path = None ->
  load_tags_from_json fs path tr =
  (Ok (JList []), tr ++ [Print [JStr ("Tag json file not found: " ++ path)]]).
Proof. intro H. unfold load_tags_from_json. now rewrite H. Qed.

Lemma load_not_json fs path error tr :
  fs path = Some (NotJson error) ->
  load_tags_from_json fs path tr = (Raise (JSONDecodeError error), tr).
Proof. intro H. unfold load_tags_from_json. now rewrite H. Qed.

Lemma load_collected fs path data tr :
  fs path = Some (Json data) ->
  extract_variable_nodeids data <> [] ->
  load_tags_from_json fs path tr = (Ok (JList (extract_variable_nodeids data)), tr).
Proof.
  intros H Hne. unfold load_tags_from_json. rewrite H.
  cbn [json_load bind ret]. cbv beta zeta.
  destruct (extract_variable_nodeids data); [contradiction|reflexivity].
Qed.

Lemma load_fallback fs path data tr :
  fs path = Some (Json data) ->
  extract_variable_nodeids data = [] ->
  load_tags_from_json fs path tr =
  (Ok match data with
      | JList _ => data
      | JDict d => get_or "tags" d (get_or "node_ids" d (JList []))
      | _ => JList []
      end, tr).
Proof.
  intros H He. unfold load_tags_from_json. rewrite H.
  cbn [json_load bind ret]. cbv beta zeta. rewrite He. cbn [truthy].
  now destruct data.
Qed.

(** Where the loader does return the variables of a tag tree: for every
    tag tree (a mapping, or a sequence of mappings, with children nested to
    any depth) the tree walk collects exactly the nodeId values of the
    descriptors of the variable category, in depth-first pre-order, and the
    Tag Loader returns that sequence whenever it is not empty; when the
    tree has no such descriptor and is a sequence, the loader returns the
    parsed sequence itself. *)
Theorem loader_tag_tree fs path data t tr :
  fs path = Some (Json data) ->
  encodes_tree data t ->
  extract_variable_nodeids data = map JStr (tree_variable_ids t) /\
  (tree_variable_ids t <> [] ->
   load_tags_from_json fs path tr =
   (Ok (JList (map JStr (tree_variable_ids t))), tr)) /\
  (tree_variable_ids t = [] -> forall roots, t = Sequence roots ->
   load_tags_from_json fs path tr = (Ok data, tr)).
Proof.
  intros Hfile Henc. pose proof (walk_encodes_tree _ _ Henc) as Hwalk.
  split; [exact Hwalk|split].
  - intro Hne. rewrite <- Hwalk. apply load_collected; [exact Hfile|].
    rewrite Hwalk. intro Hmap. apply Hne.
    now destruct (tree_variable_ids t).
  - intros Hempty roots ->. inversion Henc; subst.
    rewrite (load_fallback _ _ _ _ Hfile); [reflexivity|].
    now rewrite Hwalk, Hempty.
Qed.

Lemma plant_encodes : encodes_tree plant_json plant_tree.
Proof.
  unfold plant_json, plant_tree, descriptor.
  repeat (first [ apply encodes_sequence | apply encodes_cons | apply encodes_nil
                | apply encodes_node; [reflexivity | reflexivity | cbn]
                | apply encodes_present | apply encodes_absent | apply encodes_null ]).
Qed.

Lemma loader_tag_tree_witness :
  load_tags_from_json (one_file "tags.json" (Json plant_json)) "tags.json" [] =
  (Ok (JList [JStr "ns=1;i=2"; JStr "ns=1;i=3"; JStr "ns=1;i=5"]), []).
Proof.
  destruct (loader_tag_tree (one_file "tags.json" (Json plant_json)) "tags.json"
              plant_json plant_tree [] eq_refl plant_encodes) as (_ & H & _).
  apply H. discriminate.
Defined.

(** C1, a defect of the code.  The sequence of one folder descriptor is a
    tag tree without a variable, for which the claim gives the empty
    sequence.  The loader takes the empty result of the walk for a file in
    the flat format and returns the parsed descriptors themselves, which
    [on_open] then sends as node ids; the same folder as a mapping, outside
    a sequence, loads as the empty sequence. *)
Theorem loader_folders_sequence_defect :
  encodes_tree folders_json folders_tree /\
  tree_variable_ids folders_tree = [] /\
  load_tags_from_json (one_file "tags.json" (Json folders_json)) "tags.json" [] =
  (Ok folders_json, []) /\
  folders_json <> JList (map JStr (tree_variable_ids folders_tree)) /\
  sent_messages (snd (on_open (one_file "tags.json" (Json folders_json)) [])) =
  [JDict [("action", JStr "subscribe"); ("node_ids", folders_json)]] /\
  load_tags_from_json
    (one_file "tags.json"
       (Json (JDict [("nodeClass", JStr "NodeClassObject"); ("nodeId", JStr "ns=1;i=1")])))
    "tags.json" [] = (Ok (JList []), []).
Proof.
  split; [|split; [reflexivity|split; [reflexivity|split; [discriminate|split]]]].
  - apply encodes_sequence, encodes_cons; [|apply encodes_nil].
    apply encodes_node; [reflexivity|reflexivity|apply encodes_absent].
  - reflexivity.
  - reflexivity.
Qed.

(** ** Flat formats *)

Lemma walk_strings ids result :
  fold_left (fun r item => extract_into item r) (map JStr ids) result = result.
Proof. revert result. induction ids as [|s rest IH]; intro r; simpl; auto. Qed.

(** C8.  A file that parses as a flat sequence of node-id strings gives the
    tree walk nothing to collect, and the Tag Loader returns that sequence
    unchanged. *)
Theorem loader_flat_sequence fs path ids tr :
  fs path = Some (Json (JList (map JStr ids))) ->
  extract_variable_nodeids (JList (map JStr ids)) = [] /\
  load_tags_from_json fs path tr = (Ok (JList (map JStr ids)), tr).
Proof.
  intro Hfile.
  assert (Hwalk : extract_variable_nodeids (JList (map JStr ids)) = []).
  { unfold extract_variable_nodeids. rewrite extract_into_list. apply walk_strings. }
  split; [exact Hwalk|].
  now rewrite (load_fallback _ _ _ _ Hfile Hwalk).
Qed.

Lemma loader_flat_sequence_witness :
  load_tags_from_json (one_file "tags.json" (Json (JList [JStr "a"; JStr "b"])))
    "tags.json" [] =
  (Ok (JList [JStr "a"; JStr "b"]), []).
Proof.
  exact (proj2 (loader_flat_sequence
                  (one_file "tags.json" (Json (JList [JStr "a"; JStr "b"])))
                  "tags.json" ["a"; "b"] [] eq_refl)).
Defined.

(** C10.  A file that parses as a value that is neither a mapping nor a
    sequence (a string, a number, a boolean, null) makes the Tag Loader
    return an empty sequence, without raising and without a diagnostic. *)
Theorem loader_scalar fs path data tr :
  fs path = Some (Json data) ->
  is_scalar data = true ->
  load_tags_from_json fs path tr = (Ok (JList []), tr).
Proof.
  intros Hfile Hscalar.
  rewrite (load_fallback _ _ _ _ Hfile).
  - now destruct data.
  - now destruct data.
Qed.

Lemma loader_scalar_witness :
  load_tags_from_json (one_file "tags.json" (Json (JStr "ns=1;i=2"))) "tags.json" [] =
  (Ok (JList []), []).
Proof.
  exact (loader_scalar (one_file "tags.json" (Json (JStr "ns=1;i=2"))) "tags.json"
           (JStr "ns=1;i=2") [] eq_refl eq_refl).
Defined.

Lemma get_or_truthy key d rest v :
  dict_get key d = Some v -> truthy v = true -> get_or key d rest = v.
Proof. intros Hget Hv. unfold get_or, py_or. now rewrite Hget, Hv. Qed.

Lemma get_or_passed_over key d rest :
  passed_over key d -> get_or key d rest = rest.
Proof.
  unfold passed_over, get_or, py_or.
  destruct (dict_get key d) as [v|]; [|reflexivity].
  now intros ->.
Qed.

(** C3, as amended.  For a file that parses as a mapping from which the tree
    walk collects nothing, the Tag Loader returns the value under [tags] when
    that key is present with a truthy value; else the value under [node_ids]
    when that key is present with a truthy value; else an empty sequence. *)
Theorem loader_flat_mapping fs path d tr :
  fs path = Some (Json (JDict d)) ->
  extract_variable_nodeids (JDict d) = [] ->
  (forall v, dict_get "tags" d = Some v -> truthy v = true ->
             load_tags_from_json fs path tr = (Ok v, tr)) /\
  (passed_over "tags" d ->
   forall v, dict_get "node_ids" d = Some v -> truthy v = true ->
             load_tags_from_json fs path tr = (Ok v, tr)) /\
  (passed_over "tags" d -> passed_over "node_ids" d ->
   load_tags_from_json fs path tr = (Ok (JList []), tr)).
Proof.
  intros Hfile Hwalk. rewrite (load_fallback _ _ _ _ Hfile Hwalk).
  split; [|split].
  - intros v Hget Hv. now rewrite (get_or_truthy _ _ _ _ Hget Hv).
  - intros Htags v Hget Hv.
    now rewrite (get_or_passed_over _ _ _ Htags), (get_or_truthy _ _ _ _ Hget Hv).
  - intros Htags Hids.
    now rewrite (get_or_passed_over _ _ _ Htags), (get_or_passed_over _ _ _ Hids).
Qed.

Lemma loader_flat_mapping_witness :
  load_tags_from_json (one_file "tags.json" (Json (JDict [("tags", JList [JStr "x"])])))
    "tags.json" [] = (Ok (JList [JStr "x"]), []) /\
  load_tags_from_json (one_file "tags.json" (Json (JDict [("node_ids", JList [JStr "y"])])))
    "tags.json" [] = (Ok (JList [JStr "y"]), []) /\
  load_tags_from_json (one_file "tags.json" (Json (JDict [("other", JInt 1)])))
    "tags.json" [] = (Ok (JList []), []) /\
  load_tags_from_json (one_file "tags.json" (Json (JDict empty_tags)))
    "tags.json" [] = (Ok (JList [JStr "y"]), []).
Proof.
  split; [|split; [|split]].
  - destruct (loader_flat_mapping
                (one_file "tags.json" (Json (JDict [("tags", JList [JStr "x"])])))
                "tags.json" [("tags", JList [JStr "x"])] [] eq_refl eq_refl)
      as (H & _ & _).
    apply H; reflexivity.
  - destruct (loader_flat_mapping
                (one_file "tags.json" (Json (JDict [("node_ids", JList [JStr "y"])])))
                "tags.json" [("node_ids", JList [JStr "y"])] [] eq_refl eq_refl)
      as (_ & H & _).
    apply H; [exact I | reflexivity | reflexivity].
  - destruct (loader_flat_mapping
                (one_file "tags.json" (Json (JDict [("other", JInt 1)])))
                "tags.json" [("other", JInt 1)] [] eq_refl eq_refl)
      as (_ & _ & H).
    apply H; exact I.
  - destruct (loader_flat_mapping
                (one_file "tags.json" (Json (JDict empty_tags)))
                "tags.json" empty_tags [] eq_refl eq_refl)
      as (_ & H & _).
    apply H; reflexivity.
Defined.

(** C3, as stated, fails: with [tags] present but empty, the loader returns
    the value under [node_ids], not the value under [tags]. *)
Lemma loader_flat_mapping_counterexample :
  extract_variable_nodeids (JDict empty_tags) = [] /\
  dict_get "tags" empty_tags = Some (JList []) /\
  spec_flat_mapping empty_tags = JList [] /\
  load_tags_from_json (one_file "tags.json" (Json (JDict empty_tags))) "tags.json" [] =
  (Ok (JList [JStr "y"]), []) /\
  load_tags_from_json (one_file "tags.json" (Json (JDict empty_tags))) "tags.json" [] <>
  (Ok (spec_flat_mapping empty_tags), []).
Proof.
  split; [reflexivity|split; [reflexivity|split; [reflexivity|split]]].
  - reflexivity.
  - discriminate.
Qed.

(** ** Missing and malformed files *)

(** C5.  For a path that does not exist the Tag Loader returns an empty
    sequence, prints one diagnostic line that names the path, and does not
    raise. *)
Theorem loader_missing_file fs path tr :
  fs path = None ->
  load_tags_from_json fs path tr =
  (Ok (JList []), tr ++ [Print [JStr ("Tag json file not found: " ++ path)]]).
Proof.
  intro Hmissing. unfold load_tags_from_json. rewrite Hmissing.
  unfold bind, print, emit, ret. reflexivity.
Qed.

Lemma loader_missing_file_witness :
  load_tags_from_json (fun _ => None) "tags.json" [] =
  (Ok (JList []), [Print [JStr "Tag json file not found: tags.json"]]).
Proof. exact (loader_missing_file (fun _ => None) "tags.json" [] eq_refl). Defined.

(** ** Computations only append to the trace *)

Lemma steady_at {A} (m : M A) tr :
  steady m -> m tr = (fst (m []), tr ++ snd (m [])).
Proof. intros [H _]. apply H. Qed.

Lemma steady_ret {A} (a : A) : steady (ret a).
Proof. split; [|reflexivity]. intro tr. unfold ret. simpl. now rewrite app_nil_r. Qed.

Lemma steady_raise {A} e : steady (@raise A e).
Proof. split; [|reflexivity]. intro tr. unfold raise. simpl. now rewrite app_nil_r. Qed.

Lemma steady_emit ev : is_connect ev = false -> steady (emit ev).
Proof. intro Hev. split; [reflexivity|]. simpl. now rewrite Hev. Qed.

Lemma steady_bind {A B} (m : M A) (k : A -> M B) :
  steady m -> (forall a, steady (k a)) -> steady (bind m k).
Proof.
  intros [Hm Qm] Hk. unfold bind. split.
  - intro tr. rewrite (Hm tr).
    destruct (m []) as [[a|e] evs]; simpl; [|reflexivity].
    rewrite (steady_at (k a) (tr ++ evs) (Hk a)), (steady_at (k a) evs (Hk a)).
    simpl. now rewrite app_assoc.
  - destruct (m []) as [[a|e] evs]; simpl in *; [|exact Qm].
    rewrite (steady_at (k a) evs (Hk a)). simpl.
    rewrite filter_app, Qm. exact (proj2 (Hk a)).
Qed.

Lemma steady_try_except {A} (body : M A) handler :
  steady body -> (forall e, steady (handler e)) -> steady (try_except body handler).
Proof.
  intros [Hm Qm] Hk. unfold try_except. split.
  - intro tr. rewrite (Hm tr).
    destruct (body []) as [[a|e] evs]; simpl; [reflexivity|].
    rewrite (steady_at (handler e) (tr ++ evs) (Hk e)),
      (steady_at (handler e) evs (Hk e)).
    simpl. now rewrite app_assoc.
  - destruct (body []) as [[a|e] evs]; simpl in *; [exact Qm|].
    rewrite (steady_at (handler e) evs (Hk e)). simpl.
    rewrite filter_app, Qm. exact (proj2 (Hk e)).
Qed.

Lemma steady_for_each {A} (body : A -> M unit) xs :
  (forall x, steady (body x)) -> steady (for_each body xs).
Proof.
  intro Hbody. induction xs as [|x rest IH]; simpl.
  - apply steady_ret.
  - apply steady_bind; auto.
Qed.

Create HintDb steady.
#[local] Hint Resolve steady_ret steady_raise steady_for_each : steady.
#[local] Hint Extern 2 (steady (bind _ _)) => apply steady_bind; [|intro] : steady.
#[local] Hint Extern 2 (steady (try_except _ _)) =>
  apply steady_try_except; [|intro] : steady.
#[local] Hint Extern 1 (steady (print _)) => apply steady_emit; reflexivity : steady.
#[local] Hint Extern 1 (steady (ws_send _)) => apply steady_emit; reflexivity : steady.
#[local] Hint Extern 3 (steady (if ?b then _ else _)) => destruct b : steady.

Lemma steady_json_load f : steady (json_load f).
Proof. destruct f; simpl; auto with steady. Qed.

Lemma steady_load fs path : steady (load_tags_from_json fs path).
Proof.
  unfold load_tags_from_json.
  destruct (fs path) as [f|]; [|auto with steady].
  apply steady_bind; [apply steady_json_load|].
  intro data. cbv zeta.
  destruct (truthy (JList (extract_variable_nodeids data))); [auto with steady|].
  destruct data; auto with steady.
Qed.

Lemma steady_py_len v : steady (py_len v).
Proof. destruct v; simpl; auto with steady. Qed.

#[local] Hint Resolve steady_json_load steady_load steady_py_len : steady.

Lemma steady_on_open fs : steady (on_open fs).
Proof. unfold on_open. auto 10 with steady. Qed.

Lemma steady_on_error e : steady (on_error e).
Proof. unfold on_error. auto with steady. Qed.

Lemma steady_callback fs n : steady (callback fs n).
Proof.
  destruct n; simpl.
  - apply steady_on_open.
  - unfold on_message. auto with steady.
  - apply steady_on_error.
  - unfold on_close. auto with steady.
Qed.

#[local] Hint Resolve steady_on_open steady_on_error steady_callback : steady.

Lemma steady_session fs session :
  steady (for_each (fun n => try_except (callback fs n) on_error) session).
Proof. apply steady_for_each. intro n. auto with steady. Qed.

(** The loader prints at most; it sends nothing and connects to nothing. *)
Lemma load_events fs path tr :
  exists evs, snd (load_tags_from_json fs path tr) = tr ++ evs /\
              sent_messages evs = [] /\ filter is_connect evs = [].
Proof.
  exists (snd (load_tags_from_json fs path [])).
  rewrite (steady_at _ tr (steady_load fs path)). split; [reflexivity|].
  unfold load_tags_from_json.
  destruct (fs path) as [[error|data]|]; [now split| |now split].
  cbn [json_load bind ret]. cbv beta zeta.
  destruct (truthy (JList (extract_variable_nodeids data))); [now split|].
  now destruct data.
Qed.

Lemma sent_messages_app tr1 tr2 :
  sent_messages (tr1 ++ tr2) = sent_messages tr1 ++ sent_messages tr2.
Proof.
  induction tr1 as [|ev rest IH]; [reflexivity|].
  destruct ev; simpl; now rewrite ?IH.
Qed.

(** ** What [on_open] sends *)

Lemma on_open_raises fs tr e tr1 :
  load_tags_from_json fs TAG_JSON_PATH (tr ++ [Print [JStr "WebSocket Opened"]]) =
  (Raise e, tr1) ->
  on_open fs tr = (Raise e, tr1).
Proof.
  intro Hload. unfold on_open, bind at 1 2, print at 1, emit at 1.
  now rewrite Hload.
Qed.

Lemma on_open_sequence fs tr ids tr1 :
  load_tags_from_json fs TAG_JSON_PATH (tr ++ [Print [JStr "WebSocket Opened"]]) =
  (Ok (JList ids), tr1) ->
  exists line,
    on_open fs tr = (Ok tt, tr1 ++ [Print [JStr line]; Send (subscribe_message ids)]).
Proof.
  intro Hload. unfold on_open, bind at 1 2, print at 1, emit at 1.
  rewrite Hload. destruct ids as [|id rest].
  - eexists. cbn. unfold ws_send, emit. rewrite <- app_assoc. reflexivity.
  - eexists. cbn. unfold ws_send, emit. rewrite <- app_assoc. reflexivity.
Qed.

(** C4.  For a file that is present but is not valid JSON the Tag Loader
    raises the parse error of [json.load] and prints nothing; the caller
    [on_open] does not catch it, so the same error leaves [on_open]; and the
    outcome differs from the one for a missing file, which is a normal
    return. *)
Theorem loader_malformed_json fs path error tr :
  fs path = Some (NotJson error) ->
  load_tags_from_json fs path tr = (Raise (JSONDecodeError error), tr) /\
  (path = TAG_JSON_PATH ->
   on_open fs tr =
   (Raise (JSONDecodeError error), tr ++ [Print [JStr "WebSocket Opened"]])) /\
  (forall fs0, fs0 path = None ->
     fst (load_tags_from_json fs0 path tr) = Ok (JList []) /\
     fst (load_tags_from_json fs0 path tr) <> fst (load_tags_from_json fs path tr)).
Proof.
  intro Hfile. split; [|split].
  - now apply load_not_json.
  - intros ->. apply on_open_raises. now apply load_not_json.
  - intros fs0 Hmissing.
    rewrite (load_missing _ _ _ Hmissing), (load_not_json _ _ _ _ Hfile).
    split; [reflexivity|discriminate].
Qed.

Lemma loader_malformed_json_witness :
  load_tags_from_json (one_file "tags.json" (NotJson "Expecting value")) "tags.json" [] =
  (Raise (JSONDecodeError "Expecting value"), []).
Proof.
  exact (proj1 (loader_malformed_json
                  (one_file "tags.json" (NotJson "Expecting value"))
                  "tags.json" "Expecting value" [] eq_refl)).
Defined.

(** C2, as amended.  On an open on which the Tag Loader returns a sequence,
    [on_open] returns normally and sends exactly one message: the action
    alone when the sequence is empty, the action and the sequence, in the
    same order, under [node_ids] otherwise.  On an open on which the Tag
    Loader raises, the error leaves [on_open] and no message is sent. *)
Theorem on_open_subscribes fs tr :
  (forall ids tr1,
     load_tags_from_json fs TAG_JSON_PATH (tr ++ [Print [JStr "WebSocket Opened"]]) =
     (Ok (JList ids), tr1) ->
     fst (on_open fs tr) = Ok tt /\
     sent_messages (snd (on_open fs tr)) =
     sent_messages tr ++ [subscribe_message ids]) /\
  (forall e tr1,
     load_tags_from_json fs TAG_JSON_PATH (tr ++ [Print [JStr "WebSocket Opened"]]) =
     (Raise e, tr1) ->
     fst (on_open fs tr) = Raise e /\
     sent_messages (snd (on_open fs tr)) = sent_messages tr).
Proof.
  assert (Hsent : forall r tr1,
             load_tags_from_json fs TAG_JSON_PATH
               (tr ++ [Print [JStr "WebSocket Opened"]]) = (r, tr1) ->
             sent_messages tr1 = sent_messages tr).
  { intros r tr1 Hload.
    destruct (load_events fs TAG_JSON_PATH (tr ++ [Print [JStr "WebSocket Opened"]]))
      as (evs & Htr & Hnone & _).
    rewrite Hload in Htr. simpl in Htr. subst tr1.
    rewrite !sent_messages_app, Hnone. simpl. now rewrite !app_nil_r. }
  split.
  - intros ids tr1 Hload.
    destruct (on_open_sequence _ _ _ _ Hload) as (line & ->). simpl.
    split; [reflexivity|].
    rewrite sent_messages_app, (Hsent _ _ Hload). reflexivity.
  - intros e tr1 Hload. rewrite (on_open_raises _ _ _ _ Hload). simpl.
    split; [reflexivity|]. exact (Hsent _ _ Hload).
Qed.

Lemma on_open_subscribes_witness :
  sent_messages
    (snd (on_open (one_file "tags.json" (Json (JList [JStr "n1"; JStr "n2"]))) [])) =
  [JDict [("action", JStr "subscribe"); ("node_ids", JList [JStr "n1"; JStr "n2"])]] /\
  sent_messages (snd (on_open (fun _ => None) [])) =
  [JDict [("action", JStr "subscribe")]].
Proof.
  split.
  - exact (proj2 (proj1 (on_open_subscribes
                           (one_file "tags.json" (Json (JList [JStr "n1"; JStr "n2"]))) [])
                    [JStr "n1"; JStr "n2"] _ eq_refl)).
  - exact (proj2 (proj1 (on_open_subscribes (fun _ => None) []) [] _ eq_refl)).
Defined.

(** C2, as stated, fails: when tags.json is not valid JSON the open sends
    no message at all. *)
Lemma on_open_subscribes_counterexample :
  on_open (one_file "tags.json" (NotJson "Expecting value")) [] =
  (Raise (JSONDecodeError "Expecting value"), [Print [JStr "WebSocket Opened"]]) /\
  List.length
    (sent_messages (snd (on_open (one_file "tags.json" (NotJson "Expecting value")) [])))
  <> 1%nat.
Proof. split; [reflexivity|discriminate]. Qed.

(** ** Descriptors without nodeId, and children of variables *)

Lemma walk_items items result :
  fold_left (fun r item => extract_into item r) items result =
  result ++ flat_map extract_variable_nodeids items.
Proof.
  revert result. induction items as [|item rest IH]; intro r; simpl.
  - now rewrite app_nil_r.
  - now rewrite IH, (extract_into_app item r), app_assoc.
Qed.

Lemma extract_dict_children d :
  extract_variable_nodeids (JDict d) =
  own_ids d ++ match dict_get "children" d with
               | Some (JList cs) => flat_map extract_variable_nodeids cs
               | _ => []
               end.
Proof.
  unfold extract_variable_nodeids at 1. rewrite extract_into_dict. cbn [app].
  unfold walk_children.
  destruct (dict_get "children" d) as [[| | | | |cs|]|];
    try (now rewrite app_nil_r).
  apply walk_items.
Qed.

(** C9.  In the tree walk a mapping without the key [nodeId] adds nothing of
    its own, also when its [nodeClass] is the variable category; a mapping
    of the variable category with a [nodeId] adds that value; and in both
    cases, as for every mapping, the walk goes on into the sequence under
    [children], so that variables below variables are collected, after
    their parent. *)
Theorem walk_descends_below_variables d :
  (dict_get "nodeId" d = None ->
   extract_variable_nodeids (JDict d) =
   match dict_get "children" d with
   | Some (JList cs) => flat_map extract_variable_nodeids cs
   | _ => []
   end) /\
  (forall v,
     dict_get "nodeClass" d = Some (JStr "NodeClassVariable") ->
     dict_get "nodeId" d = Some v ->
     extract_variable_nodeids (JDict d) =
     v :: match dict_get "children" d with
          | Some (JList cs) => flat_map extract_variable_nodeids cs
          | _ => []
          end) /\
  (forall cs result,
     dict_get "children" d = Some (JList cs) ->
     extract_into (JDict d) result =
     (result ++ own_ids d) ++ flat_map extract_variable_nodeids cs).
Proof.
  split; [|split].
  - intro Hid. rewrite extract_dict_children. unfold own_ids. rewrite Hid.
    now destruct (eq_str (dict_get "nodeClass" d) "NodeClassVariable").
  - intros v Hclass Hid. rewrite extract_dict_children. unfold own_ids.
    now rewrite Hclass, Hid.
  - intros cs result Hcs. rewrite extract_into_dict, Hcs. apply walk_items.
Qed.

Lemma walk_descends_below_variables_witness :
  extract_variable_nodeids (JDict anonymous_variable) = [JStr "b"] /\
  extract_variable_nodeids
    (descriptor "NodeClassVariable" "a" [JDict anonymous_variable]) =
  [JStr "a"; JStr "b"].
Proof.
  split.
  - exact (proj1 (walk_descends_below_variables anonymous_variable) eq_refl).
  - exact (proj1 (proj2 (walk_descends_below_variables
                           [("nodeClass", JStr "NodeClassVariable");
                            ("nodeId", JStr "a");
                            ("children", JList [JDict anonymous_variable])]))
             (JStr "a") eq_refl eq_refl).
Defined.

(** ** REST calls *)

Lemma rest_call_returns net url payload headers ok_line fail_line tr :
  exists tr',
    try_except
      (response <- requests_post net url payload headers 3 ;;
       body <- json_load response ;;
       print [JStr ok_line; body])
      (fun e => print [JStr (fail_line ++ exn_str e)]) tr = (Ok tt, tr').
Proof.
  unfold try_except, bind, requests_post, emit, print, raise, ret.
  destruct (net url payload 3%Z) as [msg|msg|[error|data]]; simpl; eexists; reflexivity.
Qed.

Lemma rest_call_fails net url payload headers ok_line fail_line tr e :
  match net url payload 3%Z with
  | Refused msg => e = ConnectionError msg
  | TimedOut msg => e = Timeout msg
  | Replied _ => False
  end ->
  try_except
    (response <- requests_post net url payload headers 3 ;;
     body <- json_load response ;;
     print [JStr ok_line; body])
    (fun e => print [JStr (fail_line ++ exn_str e)]) tr =
  (Ok tt, tr ++ [Post url payload headers 3; Print [JStr (fail_line ++ exn_str e)]]).
Proof.
  unfold try_except, bind, requests_post, emit, print, raise, ret.
  destruct (net url payload 3%Z) as [msg|msg|body]; simpl; intro H;
    [subst e|subst e|contradiction]; simpl; unfold emit; now rewrite <- app_assoc.
Qed.

(** C6.  Every read and every write call returns normally, whatever the
    network does; and when the request, posted once with a timeout of 3,
    is refused or times out, the call prints the error and returns. *)
Theorem rest_calls_never_raise net node_id data_type value tr :
  fst (read_node net node_id tr) = Ok tt /\
  fst (write_node net node_id data_type value tr) = Ok tt /\
  (forall msg,
     net (REST_API_URL ++ "/read")%string (JDict [("node_id", node_id)]) 3%Z = Refused msg \/
     net (REST_API_URL ++ "/read")%string (JDict [("node_id", node_id)]) 3%Z = TimedOut msg ->
     read_node net node_id tr =
     (Ok tt,
      tr ++ [Post (REST_API_URL ++ "/read") (JDict [("node_id", node_id)])
               [("Content-Type", "application/json")] 3;
             Print [JStr ("Read node failed: " ++ msg)]])) /\
  (forall msg,
     net (REST_API_URL ++ "/write")%string
       (JDict [("node_id", node_id); ("data_type", data_type); ("value", value)]) 3%Z
     = Refused msg \/
     net (REST_API_URL ++ "/write")%string
       (JDict [("node_id", node_id); ("data_type", data_type); ("value", value)]) 3%Z
     = TimedOut msg ->
     write_node net node_id data_type value tr =
     (Ok tt,
      tr ++ [Post (REST_API_URL ++ "/write")
               (JDict [("node_id", node_id); ("data_type", data_type); ("value", value)])
               [("Content-Type", "application/json")] 3;
             Print [JStr ("Write node failed: " ++ msg)]])).
Proof.
  split; [|split; [|split]].
  - unfold read_node. cbv zeta.
    destruct (rest_call_returns net (REST_API_URL ++ "/read")
                (JDict [("node_id", node_id)]) [("Content-Type", "application/json")]
                "Read Response:" "Read node failed: " tr) as (tr' & ->).
    reflexivity.
  - unfold write_node. cbv zeta.
    destruct (rest_call_returns net (REST_API_URL ++ "/write")
                (JDict [("node_id", node_id); ("data_type", data_type); ("value", value)])
                [("Content-Type", "application/json")]
                "Write Response:" "Write node failed: " tr) as (tr' & ->).
    reflexivity.
  - intros msg [H|H]; unfold read_node; cbv zeta.
    + rewrite (rest_call_fails _ _ _ _ _ _ _ (ConnectionError msg)); [reflexivity|].
      now rewrite H.
    + rewrite (rest_call_fails _ _ _ _ _ _ _ (Timeout msg)); [reflexivity|].
      now rewrite H.
  - intros msg [H|H]; unfold write_node; cbv zeta.
    + rewrite (rest_call_fails _ _ _ _ _ _ _ (ConnectionError msg)); [reflexivity|].
      now rewrite H.
    + rewrite (rest_call_fails _ _ _ _ _ _ _ (Timeout msg)); [reflexivity|].
      now rewrite H.
Qed.

Lemma rest_calls_never_raise_witness :
  read_node dead_network (JStr "ns=1;i=43920") [] =
  (Ok tt,
   [Post "http://192.168.0.40:8080/api/v1/read" (JDict [("node_id", JStr "ns=1;i=43920")])
      [("Content-Type", "application/json")] 3;
    Print [JStr "Read node failed: Read timed out. (read timeout=3)"]]).
Proof.
  exact (proj1 (proj2 (proj2 (rest_calls_never_raise dead_network (JStr "ns=1;i=43920")
                                (JStr "String") (JStr "Hello, World!") [])))
           "Read timed out. (read timeout=3)" (or_intror eq_refl)).
Defined.

(** ** The reconnect loop *)

Lemma session_returns fs session tr :
  fst (for_each (fun n => try_except (callback fs n) on_error) session tr) = Ok tt.
Proof.
  revert tr. induction session as [|n rest IH]; intro tr; [reflexivity|].
  cbn [for_each]. unfold bind at 1, try_except at 1.
  destruct (callback fs n tr) as [[[]|e] tr']; cbn; apply IH.
Qed.

Lemma session_no_connect fs session :
  filter is_connect (session_events fs session) = [].
Proof. exact (proj2 (steady_session fs session)). Qed.

Lemma run_round fs session tr :
  run_websocket_round fs session tr = (Ok tt, tr ++ round_events fs session).
Proof.
  unfold run_websocket_round, run_forever, round_events, session_events.
  unfold bind at 1 2 3 4, print, time_sleep, emit.
  pose proof (session_returns fs session
                ((tr ++ [Print [JStr "Starting WebSocket connection..."]])
                 ++ [Connect WS_API_URL])) as Hok.
  rewrite (steady_at _ _ (steady_session fs session)) in Hok |- *.
  simpl in Hok. rewrite Hok.
  now rewrite <- !app_assoc.
Qed.

Lemma run_rounds fs sessions tr :
  run_websocket fs sessions tr = (Ok tt, tr ++ flat_map (round_events fs) sessions).
Proof.
  unfold run_websocket. revert tr.
  induction sessions as [|s rest IH]; intro tr; cbn [for_each flat_map].
  - unfold ret. now rewrite app_nil_r.
  - unfold bind. rewrite run_round, IH. now rewrite app_assoc.
Qed.

Lemma connects_rounds fs sessions :
  connects (flat_map (round_events fs) sessions) = List.length sessions.
Proof.
  unfold connects. induction sessions as [|s rest IH]; [reflexivity|].
  cbn [flat_map]. unfold round_events at 1.
  rewrite !filter_app, session_no_connect. simpl. now rewrite IH.
Qed.

Lemma app_split_at {A} (l tail before after : list A) x :
  l ++ tail = before ++ x :: after ->
  (exists mid, l = before ++ x :: mid) \/
  (exists before2, before = l ++ before2 /\ tail = before2 ++ x :: after).
Proof.
  revert before. induction l as [|a l IH]; intros before H; simpl in H.
  - right. now exists before.
  - destruct before as [|b before]; simpl in H; injection H as -> H.
    + left. now exists l.
    + destruct (IH before H) as [(mid & ->)|(before2 & -> & ->)].
      * left. now exists mid.
      * right. now exists before2.
Qed.

Lemma round_split fs session tail before url after :
  round_events fs session ++ tail = before ++ Connect url :: after ->
  before = [Print [JStr "Starting WebSocket connection..."]] \/
  (exists before2, before = round_events fs session ++ before2 /\
                   tail = before2 ++ Connect url :: after).
Proof.
  intro H. apply app_split_at in H as [(mid & Hmid)|H]; [left|now right].
  unfold round_events in Hmid. cbn [app] in Hmid.
  destruct before as [|b0 [|b1 before]]; simpl in Hmid.
  - discriminate.
  - now injection Hmid as <- _.
  - injection Hmid as _ _ Hrest. exfalso.
    apply (f_equal (filter is_connect)) in Hrest.
    rewrite !filter_app, session_no_connect in Hrest. simpl in Hrest.
    now destruct (filter is_connect before).
Qed.

Lemma reconnect_after_wait fs sessions :
  forall before url after,
    flat_map (round_events fs) sessions = before ++ Connect url :: after ->
    connects before <> 0%nat ->
    exists earlier,
      before =
      earlier ++ [Print [JStr "WebSocket closed. Reconnecting in 5 seconds..."];
                  Sleep 5;
                  Print [JStr "Starting WebSocket connection..."]].
Proof.
  induction sessions as [|s rest IH]; intros before url after H Hconn.
  - now destruct before.
  - cbn [flat_map] in H. apply round_split in H as [->|(before2 & -> & Hrest)].
    + now contradiction Hconn.
    + destruct rest as [|s2 rest2]; [now destruct before2|].
      pose proof Hrest as Hrest'. cbn [flat_map] in Hrest'.
      apply round_split in Hrest' as [->|(before3 & Hb & _)].
      * exists ([Print [JStr "Starting WebSocket connection..."]; Connect WS_API_URL]
                ++ session_events fs s).
        unfold round_events. now rewrite <- !app_assoc.
      * destruct (IH before2 url after Hrest) as (earlier & ->).
        -- rewrite Hb. unfold connects, round_events.
           rewrite !filter_app. simpl. discriminate.
        -- exists (round_events fs s ++ earlier). now rewrite app_assoc.
Qed.

(** C7.  Over any number of connections that come to a close the loop runs
    one round for each and is back at its head, never raising and never
    leaving: each round reports the start, attempts the connection, runs
    the callbacks, reports the close and sleeps 5; so there are as many
    attempts as rounds, and every attempt but the first comes right after
    the close report, the sleep of 5 and the start report. *)
Theorem reconnect_loop fs sessions tr :
  run_websocket fs sessions tr = (Ok tt, tr ++ flat_map (round_events fs) sessions) /\
  connects (flat_map (round_events fs) sessions) = List.length sessions /\
  (forall session,
     run_websocket fs (sessions ++ [session]) tr =
     run_websocket_round fs session (snd (run_websocket fs sessions tr))) /\
  (forall before url after,
     flat_map (round_events fs) sessions = before ++ Connect url :: after ->
     connects before <> 0%nat ->
     exists earlier,
       before =
       earlier ++ [Print [JStr "WebSocket closed. Reconnecting in 5 seconds..."];
                   Sleep 5;
                   Print [JStr "Starting WebSocket connection..."]]).
Proof.
  split; [apply run_rounds|split; [apply connects_rounds|split]].
  - intro session. rewrite !run_rounds, run_round. cbn [snd].
    rewrite flat_map_app. cbn [flat_map]. now rewrite app_nil_r, app_assoc.
  - apply reconnect_after_wait.
Qed.

Lemma reconnect_loop_witness :
  exists earlier,
    firstn 13 (flat_map (round_events (fun _ => None)) three_failures) =
    earlier ++ [Print [JStr "WebSocket closed. Reconnecting in 5 seconds..."];
                Sleep 5;
                Print [JStr "Starting WebSocket connection..."]].
Proof.
  apply (proj2 (proj2 (proj2 (reconnect_loop (fun _ => None) three_failures [])))
           (firstn 13 (flat_map (round_events (fun _ => None)) three_failures))
           WS_API_URL
           (skipn 14 (flat_map (round_events (fun _ => None)) three_failures))).
  - reflexivity.
  - discriminate.
Defined.

(** * Further properties of the program *)

(** ** The tree walk on arbitrary parsed values *)

Lemma walk_children_app children result :
  walk_children children result = result ++ walk_children children [].
Proof.
  unfold walk_children.
  destruct children as [[| | | | |cs|]|]; try now rewrite app_nil_r.
  now rewrite !walk_items.
Qed.

Lemma extract_list_flat_map items :
  extract_variable_nodeids (JList items) = flat_map extract_variable_nodeids items.
Proof.
  unfold extract_variable_nodeids at 1. now rewrite extract_into_list, walk_items.
Qed.

(** X1.  Called with a result list, the walk keeps that list as a prefix and
    appends to it exactly what a call without a result list returns. *)
Theorem walk_appends node result :
  extract_into node result = result ++ extract_variable_nodeids node.
Proof. revert result. apply extract_into_app. Qed.

(** X2.  The walk of a sequence is the concatenation, in order, of the walks
    of its items; so the walk of two sequences put end to end is the walk
    of the first followed by the walk of the second, and a sequence nested
    in a sequence is walked in place. *)
Theorem walk_sequence items xs ys :
  extract_variable_nodeids (JList items) =
  flat_map extract_variable_nodeids items /\
  extract_variable_nodeids (JList (xs ++ ys)) =
  extract_variable_nodeids (JList xs) ++ extract_variable_nodeids (JList ys) /\
  extract_variable_nodeids (JList (JList xs :: ys)) =
  extract_variable_nodeids (JList (xs ++ ys)).
Proof.
  split; [apply extract_list_flat_map|].
  rewrite !extract_list_flat_map, flat_map_app. split; [reflexivity|].
  cbn [flat_map]. now rewrite extract_list_flat_map.
Qed.

Lemma own_ids_In d v :
  In v (own_ids d) <->
  dict_get "nodeClass" d = Some (JStr "NodeClassVariable") /\
  dict_get "nodeId" d = Some v.
Proof.
  unfold own_ids, eq_str.
  destruct (dict_get "nodeClass" d) as [[| | | |s| |]|];
    try (simpl; split; [contradiction|intros [H _]; discriminate]).
  destruct (String.eqb_spec s "NodeClassVariable") as [->|Hs].
  - destruct (dict_get "nodeId" d) as [w|]; simpl.
    + split.
      * intros [->|[]]. now split.
      * intros [_ [= ->]]. now left.
    + split; [contradiction|intros [_ H]; discriminate].
  - simpl. split; [contradiction|]. intros [[= H] _]. now contradiction Hs.
Qed.

Lemma walk_sound node :
  forall v, In v (extract_variable_nodeids node) ->
            exists d, reaches node d /\ In v (own_ids d).
Proof.
  induction node as [| | | | |items IH|entries IH] using json_ind; intros v Hv;
    try contradiction.
  - rewrite extract_list_flat_map in Hv. apply in_flat_map in Hv as (item & Hin & Hv).
    rewrite Forall_forall in IH. destruct (IH item Hin v Hv) as (d & Hd & Hown).
    exists d. split; [|exact Hown]. now apply reaches_item with item.
  - rewrite extract_dict_children in Hv. apply in_app_or in Hv as [Hv|Hv].
    + exists entries. split; [apply reaches_self|exact Hv].
    + destruct (dict_get "children" entries) as [[| | | | |cs|]|] eqn:E;
        try contradiction.
      pose proof (dict_get_Forall
                    (fun c => forall v, In v (extract_variable_nodeids c) ->
                                        exists d, reaches c d /\ In v (own_ids d))
                    _ _ _ IH E) as Hcs.
      rewrite <- extract_list_flat_map in Hv.
      destruct (Hcs v Hv) as (d & Hd & Hown).
      exists d. split; [|exact Hown].
      inversion Hd; subst. now apply reaches_child with cs item.
Qed.

Lemma walk_complete node d :
  reaches node d -> forall v, In v (own_ids d) -> In v (extract_variable_nodeids node).
Proof.
  induction 1 as [d|d cs child d' Hcs Hin _ IH|items item d' Hin _ IH]; intros v Hv.
  - rewrite extract_dict_children. apply in_or_app. now left.
  - rewrite extract_dict_children, Hcs. apply in_or_app. right.
    apply in_flat_map. exists child. split; [exact Hin|now apply IH].
  - rewrite extract_list_flat_map. apply in_flat_map.
    exists item. split; [exact Hin|now apply IH].
Qed.

(** X3.  On any parsed value, well-formed tree or not, a value is collected
    by the walk exactly when it is the [nodeId] of a mapping the walk
    visits whose [nodeClass] is the string NodeClassVariable. *)
Theorem walk_collects_exactly node v :
  In v (extract_variable_nodeids node) <->
  exists d, reaches node d /\
            dict_get "nodeClass" d = Some (JStr "NodeClassVariable") /\
            dict_get "nodeId" d = Some v.
Proof.
  split.
  - intro Hv. destruct (walk_sound node v Hv) as (d & Hd & Hown).
    exists d. split; [exact Hd|]. now apply own_ids_In.
  - intros (d & Hd & Hown). apply (walk_complete node d Hd). now apply own_ids_In.
Qed.

(** X4.  The walk goes below a mapping only through a [children] that is a
    sequence: when [children] is absent, null, a mapping or any other value,
    the mapping yields its own nodeId at most, and nothing when its
    [nodeClass] is not a string equal to NodeClassVariable. *)
Theorem walk_children_not_a_sequence d :
  (forall cs, dict_get "children" d <> Some (JList cs)) ->
  extract_variable_nodeids (JDict d) = own_ids d /\
  (eq_str (dict_get "nodeClass" d) "NodeClassVariable" = false ->
   extract_variable_nodeids (JDict d) = []).
Proof.
  intro Hnot.
  assert (H : extract_variable_nodeids (JDict d) = own_ids d).
  { rewrite extract_dict_children.
    destruct (dict_get "children" d) as [[| | | | |cs|]|];
      try apply app_nil_r.
    now contradiction (Hnot cs). }
  split; [exact H|].
  intro Hclass. rewrite H. unfold own_ids. now rewrite Hclass.
Qed.

Lemma walk_children_not_a_sequence_witness :
  extract_variable_nodeids (JDict children_by_name) = [JStr "a"].
Proof.
  refine (proj1 (walk_children_not_a_sequence children_by_name _)).
  intros cs H. discriminate H.
Defined.

(** ** The loader on every file *)

Lemma get_or_truthy_or_rest key d rest :
  get_or key d rest = rest \/ truthy (get_or key d rest) = true.
Proof.
  unfold get_or, py_or. destruct (dict_get key d) as [v|]; [|now left].
  destruct (truthy v) eqn:E; [now right|now left].
Qed.

Lemma load_json_file fs path data tr :
  fs path = Some (Json data) ->
  exists v, load_tags_from_json fs path tr = (Ok v, tr) /\
            (v = JList [] \/ truthy v = true).
Proof.
  intro Hfile. destruct (extract_variable_nodeids data) as [|id ids] eqn:E.
  - rewrite (load_fallback _ _ _ _ Hfile E). eexists. split; [reflexivity|].
    destruct data as [| | | | |[|item items]|d]; try (now left); [now right|].
    destruct (get_or_truthy_or_rest "tags" d (get_or "node_ids" d (JList [])))
      as [->|H]; [|now right].
    destruct (get_or_truthy_or_rest "node_ids" d (JList [])) as [->|H];
      [now left|now right].
  - rewrite (load_collected _ _ _ _ Hfile); [|now rewrite E].
    eexists. split; [reflexivity|]. rewrite E. now right.
Qed.

(** X5.  Whatever the file system holds, a value the Tag Loader returns is
    the empty sequence or is truthy: a falsy value of the file (null, false,
    0, an empty string, an empty mapping) never reaches the caller. *)
Theorem loader_returns_empty_or_truthy fs path tr v tr' :
  load_tags_from_json fs path tr = (Ok v, tr') ->
  v = JList [] \/ truthy v = true.
Proof.
  intro Hload. destruct (fs path) as [[error|data]|] eqn:Hfile.
  - rewrite (load_not_json _ _ _ _ Hfile) in Hload. discriminate.
  - destruct (load_json_file _ _ _ tr Hfile) as (w & Hw & Hor).
    rewrite Hw in Hload. now injection Hload as <- _.
  - rewrite (load_missing _ _ _ Hfile) in Hload. injection Hload as <- _. now left.
Qed.

Lemma loader_returns_empty_or_truthy_witness :
  load_tags_from_json
    (one_file "tags.json" (Json (JDict [("tags", JInt 0); ("node_ids", JStr "")])))
    "tags.json" [] = (Ok (JList []), []) /\
  (JList [] = JList [] \/ truthy (JList []) = true).
Proof.
  split; [reflexivity|].
  exact (loader_returns_empty_or_truthy
           (one_file "tags.json" (Json (JDict [("tags", JInt 0); ("node_ids", JStr "")])))
           "tags.json" [] (JList []) [] eq_refl).
Defined.

(** X6.  A readable file that is JSON, of whatever shape, loads with no
    error and no diagnostic; and the Tag Loader prints exactly when the path
    is missing. *)
Theorem loader_outcomes fs path tr :
  (forall data, fs path = Some (Json data) ->
     exists v, load_tags_from_json fs path tr = (Ok v, tr)) /\
  (snd (load_tags_from_json fs path tr) <> tr <-> fs path = None).
Proof.
  split.
  - intros data Hfile.
    destruct (load_json_file _ _ _ tr Hfile) as (v & Hv & _). now exists v.
  - destruct (fs path) as [[error|data]|] eqn:Hfile.
    + rewrite (load_not_json _ _ _ _ Hfile). simpl. split.
      * intro H. now contradiction H.
      * discriminate.
    + destruct (load_json_file _ _ _ tr Hfile) as (v & -> & _). simpl. split.
      * intro H. now contradiction H.
      * discriminate.
    + rewrite (load_missing _ _ _ Hfile). simpl. split.
      * reflexivity.
      * intros _ H. apply (f_equal (@List.length event)) in H.
        rewrite length_app in H. simpl in H. lia.
Qed.

Lemma loader_outcomes_witness :
  exists v,
    load_tags_from_json (one_file "tags.json" (Json (JDict number_tags))) "tags.json" [] =
    (Ok v, []).
Proof.
  exact (proj1 (loader_outcomes (one_file "tags.json" (Json (JDict number_tags)))
                  "tags.json" [])
           (JDict number_tags) eq_refl).
Defined.

(** X7.  In a sequence that mixes plain node-id strings with descriptors,
    as soon as the descriptors hold one variable the Tag Loader returns the
    ids collected from the descriptors only: the plain strings are dropped. *)
Theorem loader_drops_plain_ids fs path ids items tr :
  fs path = Some (Json (JList (map JStr ids ++ items))) ->
  extract_variable_nodeids (JList items) <> [] ->
  load_tags_from_json fs path tr =
  (Ok (JList (extract_variable_nodeids (JList items))), tr).
Proof.
  intros Hfile Hne.
  assert (Hwalk : extract_variable_nodeids (JList (map JStr ids ++ items)) =
                  extract_variable_nodeids (JList items)).
  { rewrite !extract_list_flat_map, flat_map_app.
    rewrite <- (extract_list_flat_map (map JStr ids)).
    unfold extract_variable_nodeids at 1. now rewrite extract_into_list, walk_strings. }
  rewrite <- Hwalk. apply load_collected; [exact Hfile|]. now rewrite Hwalk.
Qed.

Lemma loader_drops_plain_ids_witness :
  load_tags_from_json (one_file "tags.json" (Json mixed_list)) "tags.json" [] =
  (Ok (JList [JStr "b"]), []).
Proof.
  apply (loader_drops_plain_ids (one_file "tags.json" (Json mixed_list)) "tags.json"
           ["a"] [descriptor "NodeClassVariable" "b" []] []).
  - reflexivity.
  - discriminate.
Defined.

(** ** [on_open] on every loader outcome *)

Lemma py_len_trace v tr :
  py_len v tr = (fst (py_len v []), tr).
Proof. now destruct v. Qed.

Lemma on_open_cases fs tr :
  on_open fs tr =
  match load_tags_from_json fs TAG_JSON_PATH (tr ++ [Print [JStr "WebSocket Opened"]]) with
  | (Raise e, tr1) => (Raise e, tr1)
  | (Ok v, tr1) =>
      if truthy v then
        match fst (py_len v []) with
        | Ok n =>
            (Ok tt,
             tr1 ++ [Print [JStr ("Subscribing to " ++ str_of_nat n
                                   ++ " tags from json file.")];
                     Send (JDict [("action", JStr "subscribe"); ("node_ids", v)])])
        | Raise e => (Raise e, tr1)
        end
      else
        (Ok tt,
         tr1 ++ [Print [JStr "No tags loaded from json, not subscribing."];
                 Send (JDict [("action", JStr "subscribe")])])
  end.
Proof.
  unfold on_open, bind at 1 2, print at 1, emit at 1.
  destruct (load_tags_from_json fs TAG_JSON_PATH
              (tr ++ [Print [JStr "WebSocket Opened"]])) as [[v|e] tr1];
    [|reflexivity].
  destruct (truthy v); cbn [negb].
  - unfold bind at 1 2. rewrite py_len_trace.
    destruct (fst (py_len v [])) as [n|e]; [|reflexivity].
    unfold bind, print, ret, ws_send, emit. now rewrite <- app_assoc.
  - unfold bind, print, ret, ws_send, emit. now rewrite <- app_assoc.
Qed.

Lemma load_sends_nothing fs path tr :
  sent_messages (snd (load_tags_from_json fs path tr)) = sent_messages tr.
Proof.
  destruct (load_events fs path tr) as (evs & -> & Hnone & _).
  now rewrite sent_messages_app, Hnone, app_nil_r.
Qed.

(** X8.  Every call of [on_open] sends at most one message: it returns
    normally exactly when it has sent one, a mapping whose first key is
    [action] with the value subscribe, and it raises exactly when it has
    sent none. *)
Theorem on_open_sends_at_most_once fs tr :
  (exists rest,
     fst (on_open fs tr) = Ok tt /\
     sent_messages (snd (on_open fs tr)) =
     sent_messages tr ++ [JDict (("action", JStr "subscribe") :: rest)]) \/
  (exists e,
     fst (on_open fs tr) = Raise e /\
     sent_messages (snd (on_open fs tr)) = sent_messages tr).
Proof.
  rewrite on_open_cases.
  pose proof (load_sends_nothing fs TAG_JSON_PATH
                (tr ++ [Print [JStr "WebSocket Opened"]])) as Hsent.
  rewrite sent_messages_app in Hsent. simpl in Hsent. rewrite app_nil_r in Hsent.
  destruct (load_tags_from_json fs TAG_JSON_PATH
              (tr ++ [Print [JStr "WebSocket Opened"]])) as [[v|e] tr1];
    simpl in Hsent.
  - destruct (truthy v); [destruct (fst (py_len v [])) as [n|e]|].
    + left. exists [("node_ids", v)]. simpl. split; [reflexivity|].
      now rewrite sent_messages_app, Hsent.
    + right. exists e. now split.
    + left. exists []. simpl. split; [reflexivity|].
      now rewrite sent_messages_app, Hsent.
  - right. exists e. now split.
Qed.

(** X9.  When tags.json is missing, [on_open] prints that the socket is
    open, that the file was not found and that no tag was loaded, then sends
    the subscribe message without node ids, and returns normally. *)
Theorem on_open_without_file fs tr :
  fs TAG_JSON_PATH = None ->
  on_open fs tr =
  (Ok tt,
   tr ++ [Print [JStr "WebSocket Opened"];
          Print [JStr "Tag json file not found: tags.json"];
          Print [JStr "No tags loaded from json, not subscribing."];
          Send (JDict [("action", JStr "subscribe")])]).
Proof.
  intro Hmissing. rewrite on_open_cases, (load_missing _ _ _ Hmissing).
  cbn [truthy]. now rewrite <- !app_assoc.
Qed.

Lemma on_open_without_file_witness :
  sent_messages (snd (on_open (fun _ => None) [])) =
  [JDict [("action", JStr "subscribe")]].
Proof.
  now rewrite (on_open_without_file (fun _ => None) [] eq_refl).
Defined.

(** X10.  When the value the Tag Loader returns is a number or a boolean
    (say tags.json is a mapping whose [tags] is 5), [on_open] raises a
    [TypeError] at [len], after the load and before any send: no message is
    sent on that connection. *)
Theorem on_open_type_error fs tr v tr1 :
  load_tags_from_json fs TAG_JSON_PATH (tr ++ [Print [JStr "WebSocket Opened"]]) =
  (Ok v, tr1) ->
  truthy v = true ->
  has_no_len v = true ->
  (exists msg, on_open fs tr = (Raise (TypeError msg), tr1)) /\
  sent_messages (snd (on_open fs tr)) = sent_messages tr.
Proof.
  intros Hload Hv Hlen.
  pose proof (load_sends_nothing fs TAG_JSON_PATH
                (tr ++ [Print [JStr "WebSocket Opened"]])) as Hsent.
  rewrite Hload, sent_messages_app in Hsent. simpl in Hsent.
  rewrite app_nil_r in Hsent.
  rewrite on_open_cases, Hload, Hv.
  destruct v; try discriminate; simpl; (split; [eexists; reflexivity|exact Hsent]).
Qed.

Lemma on_open_type_error_witness :
  on_open (one_file "tags.json" (Json (JDict number_tags))) [] =
  (Raise (TypeError "object of type 'int' has no len()"),
   [Print [JStr "WebSocket Opened"]]) /\
  sent_messages (snd (on_open (one_file "tags.json" (Json (JDict number_tags))) [])) = [].
Proof.
  split; [reflexivity|].
  exact (proj2 (on_open_type_error (one_file "tags.json" (Json (JDict number_tags))) []
                  (JInt 5) _ eq_refl eq_refl eq_refl)).
Defined.

(** X11.  Whatever truthy value with a length the Tag Loader returns (a
    sequence, but also a string or a mapping found under [tags]), [on_open]
    reports its length (items of a sequence, code points of a string, keys
    of a mapping) and sends it unchanged under [node_ids]. *)
Theorem on_open_passes_value_through fs tr v tr1 n :
  load_tags_from_json fs TAG_JSON_PATH (tr ++ [Print [JStr "WebSocket Opened"]]) =
  (Ok v, tr1) ->
  truthy v = true ->
  py_len v [] = (Ok n, []) ->
  on_open fs tr =
  (Ok tt,
   tr1 ++ [Print [JStr ("Subscribing to " ++ str_of_nat n ++ " tags from json file.")];
           Send (JDict [("action", JStr "subscribe"); ("node_ids", v)])]).
Proof.
  intros Hload Hv Hlen. rewrite on_open_cases, Hload, Hv, Hlen. reflexivity.
Qed.

Lemma on_open_passes_value_through_witness :
  on_open (one_file "tags.json" (Json (JDict [("tags", JStr "abc")]))) [] =
  (Ok tt,
   [Print [JStr "WebSocket Opened"];
    Print [JStr "Subscribing to 3 tags from json file."];
    Send (JDict [("action", JStr "subscribe"); ("node_ids", JStr "abc")])]) /\
  on_open (one_file "tags.json" (Json (JDict [("tags", JStr e_acute)]))) [] =
  (Ok tt,
   [Print [JStr "WebSocket Opened"];
    Print [JStr "Subscribing to 1 tags from json file."];
    Send (JDict [("action", JStr "subscribe"); ("node_ids", JStr e_acute)])]).
Proof.
  split.
  - exact (on_open_passes_value_through
             (one_file "tags.json" (Json (JDict [("tags", JStr "abc")]))) []
             (JStr "abc") _ 3 eq_refl eq_refl eq_refl).
  - exact (on_open_passes_value_through
             (one_file "tags.json" (Json (JDict [("tags", JStr e_acute)]))) []
             (JStr e_acute) _ 1 eq_refl eq_refl eq_refl).
Defined.

(** X12.  From file to wire: when tags.json holds a tag tree with at least
    one variable, [on_open] prints nothing about the file, reports the
    number of variables, and sends their nodeIds in depth-first pre-order
    under [node_ids]. *)
Theorem tree_file_to_subscription fs tr data t :
  fs TAG_JSON_PATH = Some (Json data) ->
  encodes_tree data t ->
  tree_variable_ids t <> [] ->
  on_open fs tr =
  (Ok tt,
   tr ++ [Print [JStr "WebSocket Opened"];
          Print [JStr ("Subscribing to "
                       ++ str_of_nat (List.length (tree_variable_ids t))
                       ++ " tags from json file.")];
          Send (JDict [("action", JStr "subscribe");
                       ("node_ids", JList (map JStr (tree_variable_ids t)))])]).
Proof.
  intros Hfile Henc Hne. pose proof (walk_encodes_tree _ _ Henc) as Hwalk.
  rewrite on_open_cases, (load_collected _ _ _ _ Hfile), Hwalk.
  - destruct (tree_variable_ids t) as [|id ids] eqn:E; [now contradiction Hne|].
    cbn [truthy map py_len ret fst List.length]. rewrite length_map.
    now rewrite <- app_assoc.
  - rewrite Hwalk. intro Hmap. apply Hne. now destruct (tree_variable_ids t).
Qed.

Lemma tree_file_to_subscription_witness :
  on_open (one_file "tags.json" (Json plant_json)) [] =
  (Ok tt,
   [Print [JStr "WebSocket Opened"];
    Print [JStr "Subscribing to 3 tags from json file."];
    Send (JDict [("action", JStr "subscribe");
                 ("node_ids", JList [JStr "ns=1;i=2"; JStr "ns=1;i=3"; JStr "ns=1;i=5"])])]).
Proof.
  apply (tree_file_to_subscription (one_file "tags.json" (Json plant_json)) []
           plant_json plant_tree).
  - reflexivity.
  - exact plant_encodes.
  - discriminate.
Defined.

(** X13.  A flat sequence is not validated: when tags.json is a non-empty
    sequence from which the walk collects nothing, [on_open] sends its
    items as they are under [node_ids], strings or not, and reports their
    number. *)
Theorem on_open_sends_flat_items fs tr item items :
  fs TAG_JSON_PATH = Some (Json (JList (item :: items))) ->
  extract_variable_nodeids (JList (item :: items)) = [] ->
  on_open fs tr =
  (Ok tt,
   tr ++ [Print [JStr "WebSocket Opened"];
          Print [JStr ("Subscribing to " ++ str_of_nat (S (List.length items))
                       ++ " tags from json file.")];
          Send (JDict [("action", JStr "subscribe");
                       ("node_ids", JList (item :: items))])]).
Proof.
  intros Hfile Hwalk.
  rewrite on_open_cases, (load_fallback _ _ _ _ Hfile Hwalk).
  cbn [truthy py_len ret fst List.length]. now rewrite <- app_assoc.
Qed.

Lemma on_open_sends_flat_items_witness :
  sent_messages
    (snd (on_open (one_file "tags.json" (Json (JList [JInt 7; JNull]))) [])) =
  [JDict [("action", JStr "subscribe"); ("node_ids", JList [JInt 7; JNull])]].
Proof.
  now rewrite (on_open_sends_flat_items
                 (one_file "tags.json" (Json (JList [JInt 7; JNull]))) []
                 (JInt 7) [JNull] eq_refl eq_refl).
Defined.

(** ** Callbacks during a connection *)

Lemma emits_ret P {A} (a : A) : emits P (ret a).
Proof. split; [apply steady_ret|reflexivity]. Qed.

Lemma emits_raise P {A} e : emits P (@raise A e).
Proof. split; [apply steady_raise|reflexivity]. Qed.

Lemma emits_emit (P : event -> bool) ev :
  P ev = true -> is_connect ev = false -> emits P (emit ev).
Proof.
  intros HP Hc. split; [now apply steady_emit|].
  simpl. now rewrite HP.
Qed.

Lemma emits_bind P {A B} (m : M A) (k : A -> M B) :
  emits P m -> (forall a, emits P (k a)) -> emits P (bind m k).
Proof.
  intros [Sm Pm] Hk. split.
  - apply steady_bind; [exact Sm|]. intro a. apply Hk.
  - unfold bind. destruct (m []) as [[a|e] evs]; simpl in *; [|exact Pm].
    rewrite (steady_at (k a) evs (proj1 (Hk a))). simpl.
    rewrite forallb_app, Pm. exact (proj2 (Hk a)).
Qed.

Lemma emits_try_except P {A} (body : M A) handler :
  emits P body -> (forall e, emits P (handler e)) -> emits P (try_except body handler).
Proof.
  intros [Sm Pm] Hk. split.
  - apply steady_try_except; [exact Sm|]. intro e. apply Hk.
  - unfold try_except. destruct (body []) as [[a|e] evs]; simpl in *; [exact Pm|].
    rewrite (steady_at (handler e) evs (proj1 (Hk e))). simpl.
    rewrite forallb_app, Pm. exact (proj2 (Hk e)).
Qed.

Lemma emits_for_each P {A} (body : A -> M unit) xs :
  (forall x, emits P (body x)) -> emits P (for_each body xs).
Proof.
  intro Hbody. induction xs as [|x rest IH]; simpl.
  - apply emits_ret.
  - apply emits_bind; auto.
Qed.

Create HintDb emits.
#[local] Hint Resolve emits_ret emits_raise emits_for_each : emits.
#[local] Hint Extern 2 (emits _ (bind _ _)) => apply emits_bind; [|intro] : emits.
#[local] Hint Extern 2 (emits _ (try_except _ _)) =>
  apply emits_try_except; [|intro] : emits.
#[local] Hint Extern 1 (emits _ (print _)) =>
  apply emits_emit; reflexivity : emits.
#[local] Hint Extern 1 (emits _ (ws_send _)) =>
  apply emits_emit; reflexivity : emits.
#[local] Hint Extern 3 (emits _ (if ?b then _ else _)) => destruct b : emits.

Lemma emits_json_load f : emits is_output (json_load f).
Proof. destruct f; simpl; auto with emits. Qed.

Lemma emits_load fs path : emits is_output (load_tags_from_json fs path).
Proof.
  unfold load_tags_from_json.
  destruct (fs path) as [f|]; [|auto with emits].
  apply emits_bind; [apply emits_json_load|].
  intro data. cbv zeta.
  destruct (truthy (JList (extract_variable_nodeids data))); [auto with emits|].
  destruct data; auto with emits.
Qed.

Lemma emits_py_len v : emits is_output (py_len v).
Proof. destruct v; simpl; auto with emits. Qed.

#[local] Hint Resolve emits_json_load emits_load emits_py_len : emits.

Lemma emits_on_error e : emits is_output (on_error e).
Proof. unfold on_error. auto with emits. Qed.

Lemma emits_callback fs n : emits is_output (callback fs n).
Proof.
  destruct n; simpl.
  - unfold on_open. auto 10 with emits.
  - unfold on_message. auto with emits.
  - apply emits_on_error.
  - unfold on_close. auto with emits.
Qed.

Lemma guarded_returns (m : M unit) tr :
  fst (try_except m on_error tr) = Ok tt.
Proof. unfold try_except. now destruct (m tr) as [[[]|e] tr']. Qed.

Lemma session_events_cons fs n rest :
  session_events fs (n :: rest) =
  snd (try_except (callback fs n) on_error []) ++ session_events fs rest.
Proof.
  unfold session_events. cbn [for_each]. unfold bind at 1.
  pose proof (guarded_returns (callback fs n) []) as Hok.
  destruct (try_except (callback fs n) on_error []) as [[[]|e] evs];
    [|discriminate].
  now rewrite (steady_at _ evs (steady_session fs rest)).
Qed.

(** X14.  The callbacks keep nothing from one notification to the next: what
    a connection prints and sends is the concatenation of what its parts
    print and send. *)
Theorem session_events_app fs s1 s2 :
  session_events fs (s1 ++ s2) = session_events fs s1 ++ session_events fs s2.
Proof.
  induction s1 as [|n rest IH]; [reflexivity|].
  cbn [app]. now rewrite !session_events_cons, IH, app_assoc.
Qed.

(** X15.  A frame that is JSON is printed, decoded, after WebSocket Message:
    and a frame that is not JSON prints nothing of its own: its decode error
    goes to [on_error], which prints it, and the callbacks for what follows
    on the connection run as before. *)
Theorem session_frames fs text rest :
  session_events fs (Message text :: rest) =
  match text with
  | Json data => Print [JStr "WebSocket Message:"; data]
  | NotJson error => Print [JStr "WebSocket Error:"; JStr error]
  end :: session_events fs rest.
Proof.
  rewrite session_events_cons. now destruct text.
Qed.

(** X16.  During a connection the callbacks only print and send: they post
    no REST request, attempt no connection and never sleep. *)
Theorem session_only_prints_and_sends fs session :
  forallb is_output (session_events fs session) = true.
Proof.
  unfold session_events.
  apply (emits_for_each is_output
           (fun n => try_except (callback fs n) on_error) session).
  intro n. apply emits_try_except; [apply emits_callback|].
  intro e. apply emits_on_error.
Qed.

(** ** Messages and waits over a whole run *)

Lemma sent_guarded (m : M unit) tr :
  sent_messages (snd (try_except m on_error tr)) = sent_messages (snd (m tr)).
Proof.
  unfold try_except. destruct (m tr) as [[a|e] tr']; [reflexivity|].
  unfold on_error, print, emit. simpl.
  rewrite sent_messages_app. simpl. apply app_nil_r.
Qed.

Lemma sent_callback fs n :
  sent_messages (snd (try_except (callback fs n) on_error [])) =
  if is_opened n then sent_messages (snd (on_open fs [])) else [].
Proof.
  rewrite sent_guarded. destruct n as [|text|error|]; try reflexivity.
  now destruct text.
Qed.

Lemma sent_session fs session :
  sent_messages (session_events fs session) =
  List.concat (repeat (sent_messages (snd (on_open fs []))) (opens session)).
Proof.
  unfold opens. induction session as [|n rest IH]; [reflexivity|].
  rewrite session_events_cons, sent_messages_app, sent_callback, IH.
  cbn [filter]. now destruct (is_opened n).
Qed.

Lemma sent_round fs session :
  sent_messages (round_events fs session) = sent_messages (session_events fs session).
Proof.
  unfold round_events. rewrite !sent_messages_app. simpl. apply app_nil_r.
Qed.

Lemma on_open_sent_once fs :
  (List.length (sent_messages (snd (on_open fs []))) <= 1)%nat.
Proof.
  rewrite on_open_cases.
  pose proof (load_sends_nothing fs TAG_JSON_PATH
                ([] ++ [Print [JStr "WebSocket Opened"]])) as Hsent.
  destruct (load_tags_from_json fs TAG_JSON_PATH
              ([] ++ [Print [JStr "WebSocket Opened"]])) as [[v|e] tr1];
    simpl in Hsent.
  - destruct (truthy v); [destruct (fst (py_len v [])) as [n|e]|]; simpl;
      rewrite ?sent_messages_app, Hsent; simpl; lia.
  - simpl. rewrite Hsent. simpl. lia.
Qed.

(** X17.  Over a whole run of the reconnect loop, messages are sent by the
    opens only, and every open sends what [on_open] sends, which is one
    message at most: each connection that opens is subscribed anew, with
    the same message as long as the files do not change. *)
Theorem run_sends_once_per_open fs sessions tr :
  sent_messages (snd (run_websocket fs sessions tr)) =
  sent_messages tr
  ++ List.concat (repeat (sent_messages (snd (on_open fs []))) (opens (List.concat sessions))) /\
  sent_messages (flat_map (round_events fs) sessions) =
  List.concat (repeat (sent_messages (snd (on_open fs []))) (opens (List.concat sessions))) /\
  (List.length (sent_messages (snd (on_open fs []))) <= 1)%nat.
Proof.
  assert (Hrounds : sent_messages (flat_map (round_events fs) sessions) =
                    List.concat (repeat (sent_messages (snd (on_open fs [])))
                                   (opens (List.concat sessions)))); cycle 1.
  { split; [|split; [exact Hrounds|apply on_open_sent_once]].
    rewrite run_rounds. cbn [snd]. now rewrite sent_messages_app, Hrounds. }
  induction sessions as [|s rest IH]; [reflexivity|].
  cbn [flat_map List.concat].
  rewrite sent_messages_app, sent_round, sent_session, IH.
  unfold opens. rewrite filter_app, length_app, repeat_app, concat_app.
  reflexivity.
Qed.

Lemma sleeps_app tr1 tr2 : sleeps (tr1 ++ tr2) = sleeps tr1 ++ sleeps tr2.
Proof. unfold sleeps. apply flat_map_app. Qed.

Lemma output_never_sleeps tr :
  forallb is_output tr = true -> sleeps tr = [].
Proof.
  induction tr as [|ev rest IH]; [reflexivity|].
  simpl. intro H. apply andb_prop in H as [Hev Hrest].
  destruct ev; try discriminate; simpl; now apply IH.
Qed.

Lemma session_never_sleeps fs session : sleeps (session_events fs session) = [].
Proof.
  apply output_never_sleeps. unfold session_events.
  apply (emits_for_each is_output
           (fun n => try_except (callback fs n) on_error) session).
  intro n. apply emits_try_except; [apply emits_callback|].
  intro e. apply emits_on_error.
Qed.

(** X18.  The wait between attempts does not grow: over any number of
    rounds, whatever happened on the connections, the sleeps of the run are
    one sleep of 5 for each round and nothing else. *)
Theorem run_waits_five_each_round fs sessions tr :
  sleeps (snd (run_websocket fs sessions tr)) =
  sleeps tr ++ repeat 5%Z (List.length sessions) /\
  sleeps (flat_map (round_events fs) sessions) = repeat 5%Z (List.length sessions).
Proof.
  assert (Hrounds : sleeps (flat_map (round_events fs) sessions) =
                    repeat 5%Z (List.length sessions)); cycle 1.
  { split; [|exact Hrounds].
    rewrite run_rounds. cbn [snd]. now rewrite sleeps_app, Hrounds. }
  induction sessions as [|s rest IH]; [reflexivity|].
  cbn [flat_map List.length repeat]. unfold round_events at 1.
  rewrite !sleeps_app, session_never_sleeps, IH. reflexivity.
Qed.

(** ** REST calls, reply by reply *)

Lemma rest_call_shape net url payload headers ok_line fail_line tr :
  exists args,
    try_except
      (response <- requests_post net url payload headers 3 ;;
       body <- json_load response ;;
       print [JStr ok_line; body])
      (fun e => print [JStr (fail_line ++ exn_str e)]) tr =
    (Ok tt, tr ++ [Post url payload headers 3; Print args]) /\
    args = match net url payload 3%Z with
           | Refused msg | TimedOut msg | Replied (NotJson msg) =>
               [JStr (fail_line ++ msg)]
           | Replied (Json body) => [JStr ok_line; body]
           end.
Proof.
  unfold try_except, bind, requests_post, emit, print, raise, ret.
  destruct (net url payload 3%Z) as [msg|msg|[error|data]]; simpl;
    unfold emit; eexists; (split; [now rewrite <- ?app_assoc|reflexivity]).
Qed.


(** X20.  A reply whose body is JSON is printed, decoded, after Read
    Response: or Write Response:; a reply whose body is not JSON is
    reported as a failed call with the decode error, like a network
    failure. *)
Theorem rest_reply_handling net node_id data_type value tr body :
  (net (REST_API_URL ++ "/read")%string (JDict [("node_id", node_id)]) 3%Z
   = Replied body ->
   snd (read_node net node_id tr) =
   tr ++ [Post (REST_API_URL ++ "/read") (JDict [("node_id", node_id)])
            [("Content-Type", "application/json")] 3;
          Print match body with
                | Json data => [JStr "Read Response:"; data]
                | NotJson error => [JStr ("Read node failed: " ++ error)]
                end]) /\
  (net (REST_API_URL ++ "/write")%string
     (JDict [("node_id", node_id); ("data_type", data_type); ("value", value)]) 3%Z
   = Replied body ->
   snd (write_node net node_id data_type value tr) =
   tr ++ [Post (REST_API_URL ++ "/write")
            (JDict [("node_id", node_id); ("data_type", data_type); ("value", value)])
            [("Content-Type", "application/json")] 3;
          Print match body with
                | Json data => [JStr "Write Response:"; data]
                | NotJson error => [JStr ("Write node failed: " ++ error)]
                end]).
Proof.
  split; intro Hreply.
  - destruct (rest_call_shape net (REST_API_URL ++ "/read")
                (JDict [("node_id", node_id)]) [("Content-Type", "application/json")]
                "Read Response:" "Read node failed: " tr) as (args & H & Hargs).
    unfold read_node. cbv zeta. rewrite H, Hargs, Hreply. now destruct body.
  - destruct (rest_call_shape net (REST_API_URL ++ "/write")
                (JDict [("node_id", node_id); ("data_type", data_type); ("value", value)])
                [("Content-Type", "application/json")]
                "Write Response:" "Write node failed: " tr) as (args & H & Hargs).
    unfold write_node. cbv zeta. rewrite H, Hargs, Hreply. now destruct body.
Qed.

Lemma rest_reply_handling_witness :
  snd (read_node (echo_network (JDict [("value", JInt 42)])) (JStr "ns=1;i=43920") []) =
  [Post "http://192.168.0.40:8080/api/v1/read" (JDict [("node_id", JStr "ns=1;i=43920")])
     [("Content-Type", "application/json")] 3;
   Print [JStr "Read Response:"; JDict [("value", JInt 42)]]].
Proof.
  exact (proj1 (rest_reply_handling (echo_network (JDict [("value", JInt 42)]))
                  (JStr "ns=1;i=43920") JNull JNull []
                  (Json (JDict [("value", JInt 42)]))) eq_refl).
Defined.
